(** * Frame realigner ([recortar_spritesheet.py])

    The script opens a sprite sheet, cuts it into a grid of fixed-size
    frames, pastes every frame [y_offset] pixels lower on a transparent
    canvas of the frame's size, and writes the canvases back at the
    frames' places on a new transparent sheet, which it saves.

    The script is embedded as it is written: the imaging library's
    operations it calls ([Image.open], [Image.new], [crop], [paste],
    [save]) are functions on an in-memory raster, exceptions are values of
    an error type, the two files are entries of an explicit world that the
    script threads. *)

From Stdlib Require Import String ZArith Bool List Lia Permutation.
Import ListNotations.
Open Scope Z_scope.

(** ** Exceptions and the two monads *)

Inductive exn : Type :=
| FileNotFoundError
| UnidentifiedImageError
| ZeroDivisionError
| ValueError
| OverflowError
| PermissionError.

Inductive result (A : Type) : Type :=
| Ok (a : A)
| Raise (e : exn).
Arguments Ok {A} a.
Arguments Raise {A} e.

Definition bind {A B : Type} (r : result A) (k : A -> result B) : result B :=
  match r with
  | Ok a => k a
  | Raise e => Raise e
  end.

Notation "x <- e ;; k" := (bind e (fun x => k))
  (at level 61, e at next level, right associativity).

(** Python's [for x in xs: s = body(x, s)], stopping at the first
    exception. *)
Fixpoint for_each {A S : Type} (xs : list A) (body : A -> S -> result S)
         (s : S) : result S :=
  match xs with
  | [] => Ok s
  | x :: xs' => s' <- body x s ;; for_each xs' body s'
  end.

(** [range(n)]: empty when [n <= 0]. *)
Definition range (n : Z) : list Z := map Z.of_nat (seq 0 (Z.to_nat n)).

(** [a // b] on Python integers: floor division, raising on [b = 0]. *)
Definition floordiv (a b : Z) : result Z :=
  if b =? 0 then Raise ZeroDivisionError else Ok (a / b).

(** ** Images *)

(** The library's image modes (channel formats); [M1], [ML], [MP], [MI],
    [MF] and [MI16] are its modes "1", "L", "P", "I", "F" and "I;16". *)
Inductive Mode : Type :=
| M1 | ML | MP | RGB | RGBA | CMYK | YCbCr | LAB | HSV | MI | MF
| LA | PA | RGBX | RGBa | La | MI16.

Definition Mode_eq_dec (a b : Mode) : {a = b} + {a <> b}.
Proof. decide equality. Defined.

(** A pixel is the tuple of its band values, as [getpixel] shows it:
    [[r; g; b; a]] in mode RGBA, [[r; g; b]] in RGB, [[l]] in L ([ML]). *)
Definition pixel : Type := list Z.

Definition getmodebands (m : Mode) : nat :=
  match m with
  | M1 | ML | MP | MI | MF | MI16 => 1
  | LA | PA | La => 2
  | RGB | YCbCr | LAB | HSV => 3
  | RGBA | CMYK | RGBX | RGBa => 4
  end%nat.

(** The alpha band of an RGBA pixel; 0 is fully transparent. *)
Definition alpha (p : pixel) : Z := nth 3 p 0.

(** An image: mode, size, and the rows of pixels from top to bottom.
    The palette and the transparency information of an image file are not
    in the record; they enter through the conversion table [convert]
    below. *)
Record Image : Type := mkImage {
  mode : Mode;
  width : Z;
  height : Z;
  data : list (list pixel)
}.

Definition size (im : Image) : Z * Z := (width im, height im).

(** The rows of a [w] x [h] raster whose pixel at [(x, y)] is [f x y]. *)
Definition raster (w h : Z) (f : Z -> Z -> pixel) : list (list pixel) :=
  map (fun y => map (fun x => f x y) (range w)) (range h).

(** The stored rows agree with the declared size. *)
Definition wf_image (im : Image) : bool :=
  (0 <=? width im) && (0 <=? height im)
  && (length (data im) =? Z.to_nat (height im))%nat
  && forallb (fun r => (length r =? Z.to_nat (width im))%nat) (data im).

Definition inside (im : Image) (x y : Z) : bool :=
  (0 <=? x) && (x <? width im) && (0 <=? y) && (y <? height im).

(** The pixel at [(x, y)]; [None] outside the image. *)
Definition pixel_at (im : Image) (x y : Z) : option pixel :=
  if inside im x y then
    match nth_error (data im) (Z.to_nat y) with
    | Some r => nth_error r (Z.to_nat x)
    | None => None
    end
  else None.

(** What a copy reads at [(x, y)]: the pixel, and zeros in every band
    outside the image (the fill of [crop]). *)
Definition load (im : Image) (x y : Z) : pixel :=
  match pixel_at im x y with
  | Some p => p
  | None => repeat 0 (getmodebands (mode im))
  end.

(** [Image.new(mode, size, color)]. *)
Definition Image_new (m : Mode) (sz : Z * Z) (color : pixel) : result Image :=
  let '(w, h) := sz in
  if (w <? 0) || (h <? 0) then Raise ValueError
  else Ok (mkImage m w h (raster w h (fun _ _ => color))).

(** [im.crop((left, upper, right, lower))]: a new image of the box's size
    in the mode of [im]; what the box covers outside [im] is zero. *)
Definition crop (im : Image) (box : Z * Z * Z * Z) : result Image :=
  let '(x0, y0, x1, y1) := box in
  if x1 <? x0 then Raise ValueError
  else if y1 <? y0 then Raise ValueError
  else
    let w := x1 - x0 in
    let h := y1 - y0 in
    Ok (mkImage (mode im) w h
          (raster w h (fun x y => load im (x0 + x) (y0 + y)))).

Section Realigner.

(** The library's mode conversion, [im.convert(mode)], pixel by pixel:
    [convert src dst] is [None] where the library has no conversion
    (it raises [ValueError]); for a palette image it reads the palette
    of the sheet being processed.  The library's conversion depends on
    the palette and the transparency information of the image as well as
    on its mode: the table is that of the sheet being processed, and of
    the sheets that differ from it in their pixels only. *)
Variable convert : Mode -> Mode -> option (pixel -> pixel).

(** The conversion [paste] applies to the pasted image: none when the
    modes agree. *)
Definition adapt (src dst : Mode) : option (pixel -> pixel) :=
  if Mode_eq_dec dst src then Some (fun p => p) else convert src dst.

(** [self.paste(im, (x0, y0))] with no mask: [im] is converted to the
    mode of [self] when the modes differ, the box is [im]'s size at
    [(x0, y0)], the part of the box inside [self] is overwritten, all
    bands included, and the part outside is dropped.  [self] is updated
    in place; the updated image is returned.  (The script pastes into
    RGBA images only, so the library's special case for an RGB [self]
    is not reached.)  This is the copy for a box the library accepts;
    [paste32] below adds the library's bound on the box coordinates. *)
Definition paste (self im : Image) (at_ : Z * Z) : result Image :=
  let '(x0, y0) := at_ in
  let '(w, h) := size im in
  match adapt (mode im) (mode self) with
  | None => Raise ValueError
  | Some conv =>
      Ok (mkImage (mode self) (width self) (height self)
            (raster (width self) (height self)
               (fun x y =>
                  if (x0 <=? x) && (x <? x0 + w) && (y0 <=? y) && (y <? y0 + h)
                  then conv (load im (x - x0) (y - y0))
                  else load self x y)))
  end.

(** The configuration, constants of the script. *)
Variables frame_width frame_height y_offset : Z.

(** The body of the inner loop. *)
Definition realign_cell (spritesheet new_sheet : Image) (row col : Z)
  : result Image :=
  let left := col * frame_width in
  let top := row * frame_height in
  frame <- crop spritesheet
             (left, top, left + frame_width, top + frame_height) ;;
  new_frame <- Image_new RGBA (frame_width, frame_height) [0; 0; 0; 0] ;;
  new_frame <- paste new_frame frame (0, y_offset) ;;
  paste new_sheet new_frame (left, top).

(** The script between [Image.open] and [save], for sizes and boxes the
    library accepts; [realign32] below adds the library's bound on them. *)
Definition realign (spritesheet : Image) : result Image :=
  let '(sheet_width, sheet_height) := size spritesheet in
  cols <- floordiv sheet_width frame_width ;;
  rows <- floordiv sheet_height frame_height ;;
  new_sheet <- Image_new RGBA (sheet_width, sheet_height) [0; 0; 0; 0] ;;
  for_each (range rows)
    (fun row new_sheet =>
       for_each (range cols)
         (fun col new_sheet => realign_cell spritesheet new_sheet row col)
         new_sheet)
    new_sheet.

(** The same script with the cells visited in a given order, for the
    claim that the order does not matter. *)
Definition realign_in_order (order : list (Z * Z)) (spritesheet : Image)
  : result Image :=
  let '(sheet_width, sheet_height) := size spritesheet in
  cols <- floordiv sheet_width frame_width ;;
  rows <- floordiv sheet_height frame_height ;;
  new_sheet <- Image_new RGBA (sheet_width, sheet_height) [0; 0; 0; 0] ;;
  for_each order
    (fun cell new_sheet =>
       realign_cell spritesheet new_sheet (fst cell) (snd cell))
    new_sheet.

(** The cells of the grid in the order of the script's loops. *)
Definition grid_cells (spritesheet : Image) : list (Z * Z) :=
  flat_map (fun row => map (fun col => (row, col))
                         (range (width spritesheet / frame_width)))
           (range (height spritesheet / frame_height)).

End Realigner.

(** ** The library's C integers *)

(** The library hands sizes and boxes to its C core as [int]: a value
    outside [[-2^31, 2^31 - 1]] raises [OverflowError]. *)
Definition c_int (z : Z) : bool :=
  (-2147483648 <=? z) && (z <=? 2147483647).

(** A library call with the integer arguments [args]: the checks made
    before the C core is entered come first ([r] is their outcome and the
    result of the call), then the arguments are read as C ints. *)
Definition with_c_ints {A : Type} (args : list Z) (r : result A)
  : result A :=
  match r with
  | Raise e => Raise e
  | Ok a => if forallb c_int args then Ok a else Raise OverflowError
  end.

(** The paste of a frame of height [fh] at the vertical offset [y] has a
    box whose upper and lower sides, [y] and [y + fh], are C ints. *)
Definition offset_fits (fh y : Z) : bool := c_int y && c_int (y + fh).

(** [Image.new], [crop] and [paste] with their arguments read as C ints. *)
Definition Image_new32 (m : Mode) (sz : Z * Z) (color : pixel)
  : result Image :=
  with_c_ints [fst sz; snd sz] (Image_new m sz color).

Definition crop32 (im : Image) (box : Z * Z * Z * Z) : result Image :=
  let '(x0, y0, x1, y1) := box in
  with_c_ints [x0; y0; x1; y1] (crop im box).

Section Realigner32.

Variable convert : Mode -> Mode -> option (pixel -> pixel).

(** The box of [self.paste(im, (x0, y0))] is
    [(x0, y0, x0 + im.width, y0 + im.height)]; the conversion of [im]
    comes before the C core reads it. *)
Definition paste32 (self im : Image) (at_ : Z * Z) : result Image :=
  let '(x0, y0) := at_ in
  with_c_ints [x0; y0; x0 + width im; y0 + height im]
    (paste convert self im at_).

Variables frame_width frame_height y_offset : Z.

(** The body of the inner loop, for every integer configuration. *)
Definition realign_cell32 (spritesheet new_sheet : Image) (row col : Z)
  : result Image :=
  let left := col * frame_width in
  let top := row * frame_height in
  frame <- crop32 spritesheet
             (left, top, left + frame_width, top + frame_height) ;;
  new_frame <- Image_new32 RGBA (frame_width, frame_height) [0; 0; 0; 0] ;;
  new_frame <- paste32 new_frame frame (0, y_offset) ;;
  paste32 new_sheet new_frame (left, top).

(** The script between [Image.open] and [save], for every integer
    configuration: [realign] where the library accepts the boxes,
    [OverflowError] where it does not. *)
Definition realign32 (spritesheet : Image) : result Image :=
  let '(sheet_width, sheet_height) := size spritesheet in
  cols <- floordiv sheet_width frame_width ;;
  rows <- floordiv sheet_height frame_height ;;
  new_sheet <- Image_new32 RGBA (sheet_width, sheet_height) [0; 0; 0; 0] ;;
  for_each (range rows)
    (fun row new_sheet =>
       for_each (range cols)
         (fun col new_sheet => realign_cell32 spritesheet new_sheet row col)
         new_sheet)
    new_sheet.

End Realigner32.

(** ** The files and the script *)

(** A file holds an image the library decodes, or something else. *)
Inductive file : Type :=
| ImageFile (im : Image)
| OtherFile.

Record World : Type := mkWorld {
  files : string -> option file;
  writable : string -> bool;
  stdout : list string
}.

Definition M (A : Type) : Type := World -> result A * World.

Definition bindM {A B : Type} (c : M A) (k : A -> M B) : M B :=
  fun w =>
    match c w with
    | (Ok a, w') => k a w'
    | (Raise e, w') => (Raise e, w')
    end.

Notation "x <~ c ;; k" := (bindM c (fun x => k))
  (at level 61, c at next level, right associativity).

Definition lift {A : Type} (r : result A) : M A := fun w => (r, w).

(** [Image.open(path)]. *)
Definition Image_open (path : string) : M Image :=
  fun w =>
    match files w path with
    | None => (Raise FileNotFoundError, w)
    | Some OtherFile => (Raise UnidentifiedImageError, w)
    | Some (ImageFile im) => (Ok im, w)
    end.

(** [im.save(path)] to a [.png] path: the file at [path] becomes the
    image, mode and pixels kept. *)
Definition save (im : Image) (path : string) : M unit :=
  fun w =>
    if writable w path then
      (Ok tt,
       mkWorld (fun p => if String.eqb p path then Some (ImageFile im)
                         else files w p)
               (writable w) (stdout w))
    else (Raise PermissionError, w).

Definition print (line : string) : M unit :=
  fun w => (Ok tt, mkWorld (files w) (writable w) (stdout w ++ [line])).

Module Config.
Definition input_path : string := "skeletonAttack-Sheet146x64.png".
Definition output_path : string := "skeletonAttack-cropped.png".
Definition frame_width : Z := 146.
Definition frame_height : Z := 64.
Definition y_offset : Z := 5.
End Config.

Section Script.

Variable convert : Mode -> Mode -> option (pixel -> pixel).

(** The script up to the line before [save]: nothing is written yet. *)
Definition build_sheet : M Image :=
  spritesheet <~ Image_open Config.input_path ;;
  lift (realign convert Config.frame_width Config.frame_height
          Config.y_offset spritesheet).

(** The whole script. *)
Definition main : M unit :=
  new_sheet <~ build_sheet ;;
  _ <~ save new_sheet Config.output_path ;;
  print ("Spritesheet corregido con offset guardado en: "
         ++ Config.output_path)%string.

End Script.

(** A conversion table for the examples, which convert sheets in the
    modes L, LA and RGB only: the library's conversions to RGBA from these
    modes, for a sheet without transparency information.  The library's
    conversions from the other modes are not in the table, and no example
    converts from them. *)
Definition sample_convert (src dst : Mode) : option (pixel -> pixel) :=
  match dst, src with
  | RGBA, ML => Some (fun p => let l := nth 0 p 0 in [l; l; l; 255])
  | RGBA, LA => Some (fun p => let l := nth 0 p 0 in [l; l; l; nth 1 p 0])
  | RGBA, RGB => Some (fun p => [nth 0 p 0; nth 1 p 0; nth 2 p 0; 255])
  | _, _ => None
  end.

(** ** Sample inputs *)

(** A 5 x 4 RGBA sheet, all pixels distinct: with 2 x 2 frames, two rows
    of two frames and a remainder column. *)
Definition small_sheet : Image :=
  mkImage RGBA 5 4 (raster 5 4 (fun x y => [x; y; 7; 255])).

(** The same sheet with other pixels in the bottom row of every frame. *)
Definition small_sheet' : Image :=
  mkImage RGBA 5 4
    (raster 5 4 (fun x y => if Z.odd y then [9; 9; 9; 9] else [x; y; 7; 255])).

(** A sheet that agrees with [small_sheet] on the left column of frames
    and nowhere else. *)
Definition small_sheet_left : Image :=
  mkImage RGBA 5 4
    (raster 5 4 (fun x y => if x <? 2 then [x; y; 7; 255] else [1; 1; 1; 1])).

(** A sheet of one frame of the script's size in mode RGB. *)
Definition rgb_sheet : Image :=
  mkImage RGB 146 64 (raster 146 64 (fun _ _ => [10; 20; 30])).

(** A sheet of one frame of the script's size in mode RGBA: row [r]
    opaque white, the rest transparent. *)
Definition row_sheet (r : Z) : Image :=
  mkImage RGBA 146 64
    (raster 146 64
       (fun _ y => if y =? r then [255; 255; 255; 255] else [0; 0; 0; 0])).

(** A sheet narrower than a frame, in a mode outside the table of
    [sample_convert]. *)
Definition narrow_sheet : Image :=
  mkImage MI16 3 70 (raster 3 70 (fun x y => [x + y])).

(** A world where [Config.input_path] holds [im] and every path can be
    written. *)
Definition world_with (im : Image) : World :=
  mkWorld (fun p => if String.eqb p Config.input_path
                    then Some (ImageFile im) else None)
          (fun _ => true) [].

(** A world with no file. *)
Definition empty_world : World := mkWorld (fun _ => None) (fun _ => true) [].

(** A world where [Config.input_path] holds [f] and [Config.output_path]
    holds the output of an earlier run, [small_sheet]. *)
Definition stale_world (f : file) : World :=
  mkWorld (fun p => if String.eqb p Config.input_path then Some f
                    else if String.eqb p Config.output_path
                         then Some (ImageFile small_sheet) else None)
          (fun _ => true) [].

(** ** What the loop computes, pixel by pixel *)

(** The box of cell [(row, col)] covers [(X, Y)]. *)
Definition covers (fw fh X Y : Z) (cell : Z * Z) : bool :=
  (snd cell * fw <=? X) && (X <? snd cell * fw + fw)
  && (fst cell * fh <=? Y) && (Y <? fst cell * fh + fh).

(** The pixel a cell leaves at [(X, Y)]: with [y = Y mod fh] the row
    within the cell, the source pixel [yoff] rows higher when that row,
    [y - yoff], is a row of the cell, transparent otherwise. *)
Definition shifted (conv : pixel -> pixel) (fw fh yoff : Z) (src : Image)
           (X Y : Z) : pixel :=
  if (yoff <=? Y mod fh) && (Y mod fh <? yoff + fh)
  then conv (load src X (Y - yoff))
  else [0; 0; 0; 0].

(** ** Ranges and rasters *)

(** Comparisons on [Z] as propositions, in the hypotheses and the goal. *)
Ltac unbool :=
  repeat match goal with
  | H : (_ && _) = true |- _ => apply andb_prop in H; destruct H
  | H : (_ || _) = false |- _ => apply orb_false_elim in H; destruct H
  | H : (_ <? _) = true |- _ => apply Z.ltb_lt in H
  | H : (_ <? _) = false |- _ => apply Z.ltb_ge in H
  | H : (_ <=? _) = true |- _ => apply Z.leb_le in H
  | H : (_ <=? _) = false |- _ => apply Z.leb_gt in H
  | H : (_ =? _) = true |- _ => apply Z.eqb_eq in H
  | H : (_ =? _) = false |- _ => apply Z.eqb_neq in H
  end.

Ltac zbool :=
  unbool;
  repeat match goal with
  | |- true = _ => symmetry
  | |- false = _ => symmetry
  | |- (_ && _) = true => apply andb_true_intro; split
  | |- (_ || _) = false => apply orb_false_intro
  | |- (_ <? _) = true => apply Z.ltb_lt
  | |- (_ <? _) = false => apply Z.ltb_ge
  | |- (_ <=? _) = true => apply Z.leb_le
  | |- (_ <=? _) = false => apply Z.leb_gt
  | |- (_ =? _) = true => apply Z.eqb_eq
  | |- (_ =? _) = false => apply Z.eqb_neq
  end;
  try lia.

Lemma in_range (n x : Z) : In x (range n) <-> 0 <= x < n.
Proof.
  unfold range. rewrite in_map_iff. split.
  - intros (k & <- & Hk). apply in_seq in Hk. lia.
  - intros H. exists (Z.to_nat x). split; [lia|]. apply in_seq. lia.
Qed.

Lemma nth_error_range (n : Z) (k : nat) :
  nth_error (range n) k = if Z.of_nat k <? n then Some (Z.of_nat k) else None.
Proof.
  unfold range. rewrite nth_error_map.
  destruct (Z.ltb_spec (Z.of_nat k) n) as [H|H].
  - rewrite nth_error_seq.
    destruct (Nat.ltb_spec k (Z.to_nat n)); [reflexivity | lia].
  - replace (nth_error (seq 0 (Z.to_nat n)) k) with (@None nat); [reflexivity|].
    symmetry. apply nth_error_None. rewrite length_seq. lia.
Qed.

Lemma length_range (n : Z) : length (range n) = Z.to_nat n.
Proof. unfold range. now rewrite length_map, length_seq. Qed.

Lemma pixel_at_raster (m : Mode) (w h : Z) (f : Z -> Z -> pixel) (x y : Z) :
  pixel_at (mkImage m w h (raster w h f)) x y
  = if (0 <=? x) && (x <? w) && (0 <=? y) && (y <? h)
    then Some (f x y) else None.
Proof.
  unfold pixel_at, inside; cbn [width height data].
  destruct ((0 <=? x) && (x <? w) && (0 <=? y) && (y <? h)) eqn:E;
    [|reflexivity].
  unbool.
  unfold raster. rewrite nth_error_map, nth_error_range.
  replace (Z.of_nat (Z.to_nat y) <? h) with true by zbool. cbn [option_map].
  rewrite nth_error_map, nth_error_range.
  replace (Z.of_nat (Z.to_nat x) <? w) with true by zbool. cbn [option_map].
  f_equal. f_equal; lia.
Qed.

Lemma load_raster (m : Mode) (w h : Z) (f : Z -> Z -> pixel) (x y : Z) :
  0 <= x < w -> 0 <= y < h ->
  load (mkImage m w h (raster w h f)) x y = f x y.
Proof.
  intros Hx Hy. unfold load. rewrite pixel_at_raster.
  replace ((0 <=? x) && (x <? w) && (0 <=? y) && (y <? h)) with true by zbool.
  reflexivity.
Qed.

Lemma raster_ext (w h : Z) (f g : Z -> Z -> pixel) :
  (forall x y, 0 <= x < w -> 0 <= y < h -> f x y = g x y) ->
  raster w h f = raster w h g.
Proof.
  intros H. unfold raster. apply map_ext_in. intros y Hy.
  apply map_ext_in. intros x Hx. apply in_range in Hx, Hy. now apply H.
Qed.

Lemma wf_image_raster (m : Mode) (w h : Z) (f : Z -> Z -> pixel) :
  0 <= w -> 0 <= h -> wf_image (mkImage m w h (raster w h f)) = true.
Proof.
  intros Hw Hh. unfold wf_image; cbn [width height data].
  repeat (apply andb_true_intro; split); try zbool.
  - unfold raster. rewrite length_map, length_range. apply Nat.eqb_refl.
  - apply forallb_forall. intros r Hr. unfold raster in Hr.
    apply in_map_iff in Hr. destruct Hr as (y & <- & _).
    rewrite length_map, length_range. apply Nat.eqb_refl.
Qed.

Lemma wf_image_pixel_at (im : Image) (x y : Z) :
  wf_image im = true -> inside im x y = true ->
  exists p, pixel_at im x y = Some p.
Proof.
  intros Hwf Hin. unfold pixel_at. rewrite Hin.
  unfold wf_image in Hwf. unfold inside in Hin.
  apply andb_prop in Hwf. destruct Hwf as [Hwf Hrows].
  apply andb_prop in Hwf. destruct Hwf as [Hwf Hlen].
  apply Nat.eqb_eq in Hlen. unbool.
  destruct (nth_error (data im) (Z.to_nat y)) as [r|] eqn:Er.
  - assert (Hr : (length r =? Z.to_nat (width im))%nat = true).
    { eapply forallb_forall in Hrows; [exact Hrows|].
      eapply nth_error_In; eassumption. }
    apply Nat.eqb_eq in Hr.
    destruct (nth_error r (Z.to_nat x)) as [p|] eqn:Ep; [now exists p|].
    apply nth_error_None in Ep. lia.
  - apply nth_error_None in Er. lia.
Qed.

Lemma wf_image_load (im : Image) (x y : Z) :
  wf_image im = true -> inside im x y = true ->
  pixel_at im x y = Some (load im x y).
Proof.
  intros Hwf Hin. destruct (wf_image_pixel_at im x y Hwf Hin) as [p Hp].
  unfold load. now rewrite Hp.
Qed.

(** ** The loop *)

Lemma for_each_app {A S : Type} (xs ys : list A) (body : A -> S -> result S)
      (s : S) :
  for_each (xs ++ ys) body s = s' <- for_each xs body s ;; for_each ys body s'.
Proof.
  revert s. induction xs as [|x xs IH]; intros s; cbn; [reflexivity|].
  destruct (body x s); cbn; [apply IH | reflexivity].
Qed.

Lemma for_each_map {A B S : Type} (g : A -> B) (xs : list A)
      (body : B -> S -> result S) (s : S) :
  for_each (map g xs) body s = for_each xs (fun x => body (g x)) s.
Proof.
  revert s. induction xs as [|x xs IH]; intros s; cbn; [reflexivity|].
  destruct (body (g x) s); cbn; [apply IH | reflexivity].
Qed.

(** Two nested loops visit the pairs row by row. *)
Lemma for_each_nested {S : Type} (rs cs : list Z)
      (body : Z -> Z -> S -> result S) (s : S) :
  for_each rs (fun r s1 => for_each cs (fun c s2 => body r c s2) s1) s
  = for_each (flat_map (fun r => map (fun c => (r, c)) cs) rs)
      (fun cell s1 => body (fst cell) (snd cell) s1) s.
Proof.
  revert s. induction rs as [|r rs IH]; intros s; cbn [for_each flat_map];
    [reflexivity|].
  rewrite for_each_app, for_each_map. cbn [fst snd].
  destruct (for_each cs (fun c s2 => body r c s2) s); cbn; [apply IH|].
  reflexivity.
Qed.

Lemma realign_in_grid_order convert fw fh yoff (src : Image) :
  realign convert fw fh yoff src
  = realign_in_order convert fw fh yoff (grid_cells fw fh src) src.
Proof.
  unfold realign, realign_in_order, grid_cells, floordiv. cbn [size].
  destruct (fw =? 0); [reflexivity|]. cbn [bind].
  destruct (fh =? 0); [reflexivity|]. cbn [bind].
  destruct (Image_new RGBA (width src, height src) [0; 0; 0; 0]);
    [|reflexivity].
  cbn [bind]. apply for_each_nested.
Qed.

(** ** One cell *)

(** The row within its cell of a row of the sheet. *)
Lemma row_in_cell (fh row Y : Z) :
  0 < fh -> row * fh <= Y < row * fh + fh -> Y mod fh = Y - row * fh.
Proof.
  intros Hfh H. symmetry. apply Z.mod_unique_pos with (q := row); lia.
Qed.

Section Cell.

Variable convert : Mode -> Mode -> option (pixel -> pixel).
Variables fw fh yoff : Z.
Variable src : Image.
Variable conv : pixel -> pixel.
Hypothesis Hconv : adapt convert (mode src) RGBA = Some conv.
Hypothesis Hfw : 0 < fw.
Hypothesis Hfh : 0 < fh.

Lemma adapt_same (m : Mode) : adapt convert m m = Some (fun p => p).
Proof. unfold adapt. destruct (Mode_eq_dec m m); congruence. Qed.

(** One iteration rewrites the box of its cell and nothing else. *)
Lemma realign_cell_raster (W H : Z) (g : Z -> Z -> pixel) (row col : Z) :
  exists g',
    realign_cell convert fw fh yoff src
      (mkImage RGBA W H (raster W H g)) row col
    = Ok (mkImage RGBA W H (raster W H g'))
    /\ forall X Y, 0 <= X < W -> 0 <= Y < H ->
         g' X Y = if covers fw fh X Y (row, col)
                  then shifted conv fw fh yoff src X Y
                  else g X Y.
Proof.
  unfold realign_cell, crop, Image_new.
  replace (col * fw + fw <? col * fw) with false by zbool.
  replace (row * fh + fh <? row * fh) with false by zbool.
  replace ((fw <? 0) || (fh <? 0)) with false by zbool.
  cbn [bind]. unfold paste at 1. cbn [size mode width height].
  rewrite Hconv. cbn [bind]. unfold paste. cbn [size mode width height].
  rewrite adapt_same.
  eexists. split; [reflexivity|].
  intros X Y HX HY. cbn beta. unfold covers; cbn [fst snd].
  destruct ((col * fw <=? X) && (X <? col * fw + fw)
            && (row * fh <=? Y) && (Y <? row * fh + fh)) eqn:Ebox.
  - unbool. rewrite load_raster by lia.
    replace (col * fw + fw - col * fw) with fw by lia.
    replace (row * fh + fh - row * fh) with fh by lia.
    replace ((0 <=? X - col * fw) && (X - col * fw <? 0 + fw)) with true
      by zbool.
    cbn [andb]. unfold shifted. rewrite (row_in_cell fh row Y) by lia.
    destruct ((yoff <=? Y - row * fh) && (Y - row * fh <? yoff + fh))
      eqn:Eshift.
    + unbool. rewrite load_raster by lia. f_equal. f_equal; lia.
    + rewrite load_raster by lia. reflexivity.
  - rewrite load_raster by lia. reflexivity.
Qed.

(** Any number of iterations, in any order: a pixel some visited cell
    covers holds that cell's shifted pixel, the others are untouched. *)
Lemma for_each_cells_raster (cells : list (Z * Z)) (W H : Z) :
  forall g : Z -> Z -> pixel,
  exists g',
    for_each cells
      (fun cell s => realign_cell convert fw fh yoff src s
                       (fst cell) (snd cell))
      (mkImage RGBA W H (raster W H g))
    = Ok (mkImage RGBA W H (raster W H g'))
    /\ forall X Y, 0 <= X < W -> 0 <= Y < H ->
         g' X Y = if existsb (covers fw fh X Y) cells
                  then shifted conv fw fh yoff src X Y
                  else g X Y.
Proof.
  induction cells as [|[row col] cells IH]; intros g.
  - exists g. split; reflexivity.
  - cbn [for_each fst snd].
    destruct (realign_cell_raster W H g row col) as (g1 & -> & Hg1).
    cbn [bind]. destruct (IH g1) as (g2 & -> & Hg2).
    exists g2. split; [reflexivity|].
    intros X Y HX HY. rewrite Hg2, Hg1 by assumption.
    cbn [existsb].
    destruct (existsb (covers fw fh X Y) cells);
      [now rewrite orb_true_r|].
    rewrite orb_false_r. reflexivity.
Qed.

End Cell.

(** ** The grid *)

Lemma in_grid_cells (fw fh : Z) (src : Image) (row col : Z) :
  In (row, col) (grid_cells fw fh src)
  <-> 0 <= row < height src / fh /\ 0 <= col < width src / fw.
Proof.
  unfold grid_cells. rewrite in_flat_map. split.
  - intros (r & Hr & Hc). apply in_map_iff in Hc.
    destruct Hc as (c & [= <- <-] & Hc). apply in_range in Hr, Hc. lia.
  - intros [Hr Hc]. exists row. split; [now apply in_range|].
    apply in_map_iff. exists col. split; [reflexivity | now apply in_range].
Qed.

(** The number of whole frames along a side: what [//] computes. *)
Lemma whole_frames (n f : Z) :
  0 < f -> (n / f) * f <= n < (n / f + 1) * f.
Proof.
  intros Hf. pose proof (Z.div_mod n f). pose proof (Z.mod_pos_bound n f).
  nia.
Qed.

(** The cells of the grid cover the whole-frame region and nothing else. *)
Lemma covered_by_grid (fw fh : Z) (src : Image) (X Y : Z) :
  0 < fw -> 0 < fh -> 0 <= X -> 0 <= Y ->
  existsb (covers fw fh X Y) (grid_cells fw fh src)
  = (X <? width src / fw * fw) && (Y <? height src / fh * fh).
Proof.
  intros Hfw Hfh HX HY.
  destruct ((X <? width src / fw * fw) && (Y <? height src / fh * fh)) eqn:E.
  - unbool. apply existsb_exists. exists (Y / fh, X / fw).
    pose proof (whole_frames X fw Hfw). pose proof (whole_frames Y fh Hfh).
    split.
    + apply in_grid_cells.
      assert (0 <= X / fw) by (apply Z.div_pos; lia).
      assert (0 <= Y / fh) by (apply Z.div_pos; lia).
      split; split; try assumption.
      * apply Z.div_lt_upper_bound; lia.
      * apply Z.div_lt_upper_bound; lia.
    + unfold covers; cbn [fst snd]. zbool.
  - destruct (existsb (covers fw fh X Y) (grid_cells fw fh src)) eqn:Ex;
      [|reflexivity].
    apply existsb_exists in Ex. destruct Ex as ([row col] & Hin & Hc).
    apply in_grid_cells in Hin. unfold covers in Hc; cbn [fst snd] in Hc.
    unbool. apply andb_false_iff in E. destruct E as [E|E]; unbool; nia.
Qed.

Lemma existsb_Permutation {A : Type} (f : A -> bool) (l l' : list A) :
  Permutation l l' -> existsb f l = existsb f l'.
Proof.
  intros HP. induction HP; cbn.
  - reflexivity.
  - now rewrite IHHP.
  - destruct (f x), (f y); reflexivity.
  - congruence.
Qed.

(** ** The whole transform *)

Section Transform.

Variable convert : Mode -> Mode -> option (pixel -> pixel).
Variables fw fh yoff : Z.
Variable src : Image.

(** The pixel of the new sheet at [(X, Y)] once the cells of [order]
    have been processed. *)
Lemma realign_in_order_raster (conv : pixel -> pixel)
      (order : list (Z * Z)) :
  adapt convert (mode src) RGBA = Some conv ->
  0 < fw -> 0 < fh -> 0 <= width src -> 0 <= height src ->
  exists g,
    realign_in_order convert fw fh yoff order src
    = Ok (mkImage RGBA (width src) (height src)
          (raster (width src) (height src) g))
    /\ forall X Y, 0 <= X < width src -> 0 <= Y < height src ->
         g X Y = if existsb (covers fw fh X Y) order
                 then shifted conv fw fh yoff src X Y
                 else [0; 0; 0; 0].
Proof.
  intros Hconv Hfw Hfh HW HH.
  unfold realign_in_order, floordiv, Image_new. cbn [size].
  replace (fw =? 0) with false by zbool.
  replace (fh =? 0) with false by zbool.
  replace ((width src <? 0) || (height src <? 0)) with false by zbool.
  cbn [bind].
  apply (for_each_cells_raster convert fw fh yoff src conv Hconv Hfw Hfh).
Qed.

(** The pixel of the output at [(X, Y)]: the shifted pixel inside the
    region of whole frames, transparent in the remainder. *)
Lemma realign_raster (conv : pixel -> pixel) :
  adapt convert (mode src) RGBA = Some conv ->
  0 < fw -> 0 < fh -> 0 <= width src -> 0 <= height src ->
  exists g,
    realign convert fw fh yoff src
    = Ok (mkImage RGBA (width src) (height src)
          (raster (width src) (height src) g))
    /\ forall X Y, 0 <= X < width src -> 0 <= Y < height src ->
         g X Y = if (X <? width src / fw * fw) && (Y <? height src / fh * fh)
                 then shifted conv fw fh yoff src X Y
                 else [0; 0; 0; 0].
Proof.
  intros Hconv Hfw Hfh HW HH. rewrite realign_in_grid_order.
  destruct (realign_in_order_raster conv (grid_cells fw fh src)
              Hconv Hfw Hfh HW HH) as (g & Hg & Hpix).
  exists g. split; [exact Hg|].
  intros X Y HX HY. rewrite Hpix by assumption.
  rewrite covered_by_grid by lia. reflexivity.
Qed.

End Transform.

Lemma wf_image_size (im : Image) :
  wf_image im = true -> 0 <= width im /\ 0 <= height im.
Proof.
  unfold wf_image. intros Hwf.
  repeat (apply andb_prop in Hwf; destruct Hwf as [Hwf ?]). zbool.
Qed.

(** The output of a run on a well-formed sheet, read pixel by pixel. *)
Lemma realign_pixel_at convert fw fh yoff (src : Image)
      (conv : pixel -> pixel) :
  wf_image src = true -> 0 < fw -> 0 < fh ->
  adapt convert (mode src) RGBA = Some conv ->
  exists out,
    realign convert fw fh yoff src = Ok out
    /\ mode out = RGBA /\ width out = width src /\ height out = height src
    /\ forall X Y,
         pixel_at out X Y
         = if inside src X Y
           then Some (if (X <? width src / fw * fw)
                         && (Y <? height src / fh * fh)
                      then shifted conv fw fh yoff src X Y
                      else [0; 0; 0; 0])
           else None.
Proof.
  intros Hwf Hfw Hfh Hconv. destruct (wf_image_size src Hwf) as [HW HH].
  destruct (realign_raster convert fw fh yoff src conv Hconv Hfw Hfh HW HH)
    as (g & Hg & Hpix).
  eexists. split; [exact Hg|]. cbn [mode width height].
  repeat split. intros X Y. rewrite pixel_at_raster. unfold inside.
  destruct ((0 <=? X) && (X <? width src) && (0 <=? Y) && (Y <? height src))
    eqn:E; [|reflexivity].
  unbool. now rewrite Hpix by lia.
Qed.

(** A point of a cell of the grid lies in the region of whole frames. *)
Lemma cell_point_bounds (fw fh : Z) (src : Image) (row col x y : Z) :
  0 < fw -> 0 < fh ->
  0 <= row < height src / fh -> 0 <= col < width src / fw ->
  0 <= x < fw -> 0 <= y < fh ->
  0 <= col * fw + x < width src / fw * fw
  /\ width src / fw * fw <= width src
  /\ 0 <= row * fh + y < height src / fh * fh
  /\ height src / fh * fh <= height src.
Proof.
  intros Hfw Hfh Hr Hc Hx Hy.
  pose proof (whole_frames (width src) fw Hfw).
  pose proof (whole_frames (height src) fh Hfh). nia.
Qed.

(** The pixel of the output at a point of a cell of the grid. *)
Lemma realign_cell_pixel convert fw fh yoff (src : Image)
      (conv : pixel -> pixel) :
  wf_image src = true -> 0 < fw -> 0 < fh ->
  adapt convert (mode src) RGBA = Some conv ->
  exists out,
    realign convert fw fh yoff src = Ok out
    /\ forall row col x y,
         0 <= row < height src / fh -> 0 <= col < width src / fw ->
         0 <= x < fw -> 0 <= y < fh ->
         pixel_at out (col * fw + x) (row * fh + y)
         = Some (if (yoff <=? y) && (y <? yoff + fh)
                 then conv (load src (col * fw + x) (row * fh + (y - yoff)))
                 else [0; 0; 0; 0]).
Proof.
  intros Hwf Hfw Hfh Hconv.
  destruct (realign_pixel_at convert fw fh yoff src conv Hwf Hfw Hfh Hconv)
    as (out & Hout & _ & _ & _ & Hpix).
  exists out. split; [exact Hout|].
  intros row col x y Hr Hc Hx Hy.
  pose proof (cell_point_bounds fw fh src row col x y Hfw Hfh Hr Hc Hx Hy).
  rewrite Hpix. unfold inside.
  replace ((0 <=? col * fw + x) && (col * fw + x <? width src)
           && (0 <=? row * fh + y) && (row * fh + y <? height src))
    with true by zbool.
  replace ((col * fw + x <? width src / fw * fw)
           && (row * fh + y <? height src / fh * fh)) with true by zbool.
  unfold shifted. rewrite (row_in_cell fh row) by lia.
  replace (row * fh + y - row * fh) with y by lia.
  replace (row * fh + y - yoff) with (row * fh + (y - yoff)) by lia.
  reflexivity.
Qed.

(** ** The claims about the transform *)





Lemma load_agree (a b : Image) (x y : Z) :
  mode b = mode a -> pixel_at a x y = pixel_at b x y ->
  load a x y = load b x y.
Proof. intros Hm Hp. unfold load. now rewrite Hp, Hm. Qed.

(** The copy clips on both sides: a source row of a cell whose
    destination row [sy + yoff] is not in [[0, fh)] reaches no output
    pixel, and an output row of a cell that no kept source row lands on is
    transparent. *)
Lemma realign_clips_without_wrap convert fw fh yoff (src src' : Image)
        (conv : pixel -> pixel) :
  wf_image src = true -> wf_image src' = true -> 0 < fw -> 0 < fh ->
  adapt convert (mode src) RGBA = Some conv ->
  mode src' = mode src -> width src' = width src ->
  height src' = height src ->
  (forall row col x sy,
     0 <= row < height src / fh -> 0 <= col < width src / fw ->
     0 <= x < fw -> 0 <= sy < fh -> 0 <= sy + yoff < fh ->
     pixel_at src (col * fw + x) (row * fh + sy)
     = pixel_at src' (col * fw + x) (row * fh + sy)) ->
  exists out,
    realign convert fw fh yoff src = Ok out
    /\ realign convert fw fh yoff src' = Ok out
    /\ forall row col x y,
         0 <= row < height src / fh -> 0 <= col < width src / fw ->
         0 <= x < fw -> 0 <= y < fh -> ~ (0 <= y - yoff < fh) ->
         exists p,
           pixel_at out (col * fw + x) (row * fh + y) = Some p
           /\ p = [0; 0; 0; 0] /\ alpha p = 0.
Proof.
  intros Hwf Hwf' Hfw Hfh Hconv Hmode HW HH Hagree.
  destruct (realign_cell_pixel convert fw fh yoff src conv Hwf Hfw Hfh Hconv)
    as (out & Hout & Hcell).
  exists out. split; [exact Hout|]. split.
  - destruct (wf_image_size src Hwf) as [HW0 HH0].
    destruct (realign_raster convert fw fh yoff src conv Hconv Hfw Hfh
                HW0 HH0) as (g & Hg & Hpix).
    assert (Hconv' : adapt convert (mode src') RGBA = Some conv)
      by now rewrite Hmode.
    assert (HW0' : 0 <= width src') by lia.
    assert (HH0' : 0 <= height src') by lia.
    destruct (realign_raster convert fw fh yoff src' conv Hconv' Hfw Hfh
                HW0' HH0') as (g' & Hg' & Hpix').
    rewrite Hout in Hg. injection Hg as ->. rewrite Hg', HW, HH.
    f_equal. f_equal. apply raster_ext. intros X Y HX HY.
    rewrite Hpix by assumption. rewrite Hpix' by lia. rewrite HW, HH.
    destruct ((X <? width src / fw * fw) && (Y <? height src / fh * fh))
      eqn:Egrid; [|reflexivity].
    unfold shifted.
    destruct ((yoff <=? Y mod fh) && (Y mod fh <? yoff + fh)) eqn:Ekept;
      [|reflexivity].
    unbool. f_equal. symmetry. apply load_agree; [exact Hmode|].
    pose proof (Z.div_mod X fw). pose proof (Z.mod_pos_bound X fw Hfw).
    pose proof (Z.div_mod Y fh). pose proof (Z.mod_pos_bound Y fh Hfh).
    replace X with (X / fw * fw + X mod fw) by lia.
    replace (Y - yoff) with (Y / fh * fh + (Y mod fh - yoff)) by lia.
    apply Hagree; try lia.
    + split; [apply Z.div_pos; lia | apply Z.div_lt_upper_bound; lia].
    + split; [apply Z.div_pos; lia | apply Z.div_lt_upper_bound; lia].
  - intros row col x y Hr Hc Hx Hy Hdropped. exists [0; 0; 0; 0].
    rewrite Hcell by assumption.
    replace ((yoff <=? y) && (y <? yoff + fh)) with false; [repeat split|].
    symmetry. apply andb_false_iff.
    destruct (Z.leb_spec yoff y); [|now left].
    destruct (Z.ltb_spec y (yoff + fh)); [|now right]. lia.
Qed.

(** ** The order of the cells *)

(** With no conversion from the sheet's mode, an iteration raises. *)
Lemma realign_cell_unconvertible convert fw fh yoff (src sheet : Image)
      (row col : Z) :
  adapt convert (mode src) RGBA = None ->
  realign_cell convert fw fh yoff src sheet row col = Raise ValueError.
Proof.
  intros Hnone. unfold realign_cell, crop, Image_new.
  destruct (col * fw + fw <? col * fw); [reflexivity|].
  destruct (row * fh + fh <? row * fh); [reflexivity|].
  destruct ((fw <? 0) || (fh <? 0)); [reflexivity|].
  cbn [bind]. unfold paste at 1. cbn [size mode]. rewrite Hnone.
  reflexivity.
Qed.

Lemma div_pos_divisor (n f : Z) : 0 <= n -> 0 < n / f -> 0 < f.
Proof.
  intros Hn Hq. destruct (Z.lt_trichotomy f 0) as [Hf|[->|Hf]].
  - pose proof (Z.div_mod n f). pose proof (Z.mod_neg_bound n f Hf). nia.
  - rewrite Z.div_0_r in Hq. lia.
  - exact Hf.
Qed.

(** C7.  Visiting the cells of the grid in any order, each once, gives
    what the script's row-by-row loops give: the same image, or the same
    exception. *)
Theorem realign_order_irrelevant convert fw fh yoff (src : Image)
        (order : list (Z * Z)) :
  Permutation order (grid_cells fw fh src) ->
  realign_in_order convert fw fh yoff order src
  = realign convert fw fh yoff src.
Proof.
  intros HP. rewrite realign_in_grid_order.
  unfold realign_in_order, floordiv, Image_new. cbn [size].
  destruct (fw =? 0); [reflexivity|]. cbn [bind].
  destruct (fh =? 0); [reflexivity|]. cbn [bind].
  destruct ((width src <? 0) || (height src <? 0)) eqn:Esize;
    [reflexivity|]. cbn [bind].
  destruct (grid_cells fw fh src) as [|[row col] cells] eqn:Egrid.
  - apply Permutation_sym, Permutation_nil in HP. now subst order.
  - assert (Hin : In (row, col) (grid_cells fw fh src))
      by (rewrite Egrid; now left).
    apply in_grid_cells in Hin. unbool.
    assert (Hfw : 0 < fw) by (apply (div_pos_divisor (width src)); lia).
    assert (Hfh : 0 < fh) by (apply (div_pos_divisor (height src)); lia).
    destruct (adapt convert (mode src) RGBA) as [conv|] eqn:Hconv.
    + destruct (for_each_cells_raster convert fw fh yoff src conv Hconv
                  Hfw Hfh order (width src) (height src)
                  (fun _ _ => [0; 0; 0; 0])) as (g1 & -> & Hg1).
      destruct (for_each_cells_raster convert fw fh yoff src conv Hconv
                  Hfw Hfh ((row, col) :: cells) (width src) (height src)
                  (fun _ _ => [0; 0; 0; 0])) as (g2 & -> & Hg2).
      f_equal. f_equal. apply raster_ext. intros X Y HX HY.
      rewrite Hg1, Hg2 by assumption.
      now rewrite (existsb_Permutation _ _ _ HP).
    + destruct order as [|[row' col'] order'].
      * apply Permutation_nil in HP. discriminate.
      * cbn [for_each fst snd].
        now rewrite !realign_cell_unconvertible by assumption.
Qed.

(** C6.  With the script's frame size and offset, there is a sheet whose
    output is not a fixed point: the white row 0 of the frame is at row 5
    after one run and at row 10 after a run on that output. *)
Theorem realign_not_idempotent convert :
  exists src out out2,
    wf_image src = true
    /\ realign convert Config.frame_width Config.frame_height
         Config.y_offset src = Ok out
    /\ wf_image out = true
    /\ realign convert Config.frame_width Config.frame_height
         Config.y_offset out = Ok out2
    /\ out2 <> out
    /\ pixel_at src 0 0 = Some [255; 255; 255; 255]
    /\ pixel_at out 0 Config.y_offset = Some [255; 255; 255; 255]
    /\ pixel_at out2 0 Config.y_offset = Some [0; 0; 0; 0]
    /\ pixel_at out2 0 (2 * Config.y_offset) = Some [255; 255; 255; 255].
Proof.
  exists (row_sheet 0), (row_sheet 5), (row_sheet 10).
  assert (Hdiff : pixel_at (row_sheet 10) 0 5 <> pixel_at (row_sheet 5) 0 5)
    by (vm_compute; discriminate).
  repeat split; try (vm_compute; reflexivity).
  intros Heq. apply Hdiff. now rewrite Heq.
Qed.

(** ** The shape of any output *)

Lemma for_each_invariant {A S : Type} (P : S -> Prop) (xs : list A)
      (body : A -> S -> result S) :
  (forall x s s', P s -> body x s = Ok s' -> P s') ->
  forall s s', P s -> for_each xs body s = Ok s' -> P s'.
Proof.
  intros Hstep. induction xs as [|x xs IH]; intros s s' Hs Hrun.
  - injection Hrun as <-. exact Hs.
  - cbn [for_each] in Hrun. destruct (body x s) as [s1|e] eqn:E1;
      [|discriminate].
    cbn [bind] in Hrun. eapply IH; [|exact Hrun]. eapply Hstep; eassumption.
Qed.

Lemma paste_shape convert (self im out : Image) (at_ : Z * Z) :
  paste convert self im at_ = Ok out ->
  mode out = mode self /\ width out = width self
  /\ height out = height self
  /\ (wf_image self = true -> wf_image out = true).
Proof.
  unfold paste. destruct at_ as [x0 y0]. cbn [size].
  destruct (adapt convert (mode im) (mode self)); [|discriminate].
  intros [= <-]. cbn [mode width height]. repeat split.
  intros Hwf. apply wf_image_size in Hwf. now apply wf_image_raster.
Qed.

Lemma realign_cell_shape convert fw fh yoff (src sheet out : Image)
      (row col : Z) :
  realign_cell convert fw fh yoff src sheet row col = Ok out ->
  mode out = mode sheet /\ width out = width sheet
  /\ height out = height sheet
  /\ (wf_image sheet = true -> wf_image out = true).
Proof.
  unfold realign_cell.
  destruct (crop src _) as [frame|]; [|discriminate]. cbn [bind].
  destruct (Image_new RGBA _ _) as [blank|]; [|discriminate]. cbn [bind].
  destruct (paste convert blank frame _) as [new_frame|]; [|discriminate].
  cbn [bind]. apply paste_shape.
Qed.

(** Whenever the transform returns, the image is a well-formed RGBA image
    of the size of the source. *)
Lemma realign_shape convert fw fh yoff (src out : Image) :
  realign convert fw fh yoff src = Ok out ->
  mode out = RGBA /\ width out = width src /\ height out = height src
  /\ wf_image out = true.
Proof.
  rewrite realign_in_grid_order.
  unfold realign_in_order, floordiv, Image_new. cbn [size].
  destruct (fw =? 0); [discriminate|]. cbn [bind].
  destruct (fh =? 0); [discriminate|]. cbn [bind].
  destruct ((width src <? 0) || (height src <? 0)) eqn:Esize;
    [discriminate|].
  cbn [bind].
  apply (for_each_invariant
           (fun s => mode s = RGBA /\ width s = width src
                     /\ height s = height src /\ wf_image s = true)).
  - intros cell s s' (Hm & Hw & Hh & Hwf) Hstep.
    apply realign_cell_shape in Hstep.
    destruct Hstep as (-> & -> & -> & Hwf'). auto.
  - cbn [mode width height]. repeat split.
    apply wf_image_raster; zbool.
Qed.

(** ** The script and the files *)

Lemma build_sheet_reads_only convert (w w' : World) (r : result Image) :
  build_sheet convert w = (r, w') -> w' = w.
Proof.
  unfold build_sheet, bindM, Image_open, lift.
  destruct (files w Config.input_path) as [[im|]|]; now intros [= _ <-].
Qed.

(** A run that reaches [save] with a writable path. *)
Lemma main_saves convert (w : World) (src out : Image) :
  files w Config.input_path = Some (ImageFile src) ->
  realign convert Config.frame_width Config.frame_height Config.y_offset src
  = Ok out ->
  writable w Config.output_path = true ->
  main convert w
  = (Ok tt,
     mkWorld (fun p => if String.eqb p Config.output_path
                       then Some (ImageFile out) else files w p)
             (writable w)
             (stdout w ++ [("Spritesheet corregido con offset guardado en: "
                            ++ Config.output_path)%string])).
Proof.
  intros Hfile Hrun Hwr.
  unfold main, build_sheet, bindM, Image_open, lift, save, print.
  rewrite Hfile, Hrun, Hwr. reflexivity.
Qed.

(** What a successful run leaves behind. *)
Lemma main_returns convert (w w' : World) :
  main convert w = (Ok tt, w') ->
  exists src out,
    files w Config.input_path = Some (ImageFile src)
    /\ realign convert Config.frame_width Config.frame_height
         Config.y_offset src = Ok out
    /\ files w' Config.output_path = Some (ImageFile out)
    /\ forall p, p <> Config.output_path -> files w' p = files w p.
Proof.
  unfold main, build_sheet, bindM, Image_open, lift, save, print.
  destruct (files w Config.input_path) as [[src|]|] eqn:Hfile;
    try discriminate.
  destruct (realign convert _ _ _ src) as [out|] eqn:Hrun; [|discriminate].
  destruct (writable w Config.output_path); [|discriminate].
  intros [= <-]. exists src, out. cbn [files].
  rewrite String.eqb_refl. split; [reflexivity|]. split; [exact Hrun|].
  split; [reflexivity|].
  intros p Hp. apply String.eqb_neq in Hp. now rewrite Hp.
Qed.

Lemma grid_cells_nil (fw fh : Z) (src : Image) :
  height src / fh <= 0 \/ width src / fw <= 0 -> grid_cells fw fh src = [].
Proof.
  intros Hempty. destruct (grid_cells fw fh src) as [|[row col] cells] eqn:E;
    [reflexivity|].
  assert (Hin : In (row, col) (grid_cells fw fh src))
    by (rewrite E; now left).
  apply in_grid_cells in Hin. lia.
Qed.

(** With no cell to process the output is the blank sheet. *)
Lemma realign_empty_grid convert fw fh yoff (src : Image) :
  wf_image src = true -> fw <> 0 -> fh <> 0 ->
  grid_cells fw fh src = [] ->
  realign convert fw fh yoff src
  = Ok (mkImage RGBA (width src) (height src)
          (raster (width src) (height src) (fun _ _ => [0; 0; 0; 0]))).
Proof.
  intros Hwf Hfw Hfh Hgrid. destruct (wf_image_size src Hwf) as [HW HH].
  rewrite realign_in_grid_order, Hgrid.
  unfold realign_in_order, floordiv, Image_new. cbn [size].
  replace (fw =? 0) with false by zbool.
  replace (fh =? 0) with false by zbool.
  replace ((width src <? 0) || (height src <? 0)) with false by zbool.
  reflexivity.
Qed.

(** The transform returns when there are no cells or the library converts
    the sheet's mode. *)
Lemma realign_runs convert fw fh yoff (src : Image) :
  wf_image src = true -> 0 < fw -> 0 < fh ->
  grid_cells fw fh src = [] \/ adapt convert (mode src) RGBA <> None ->
  exists out, realign convert fw fh yoff src = Ok out.
Proof.
  intros Hwf Hfw Hfh [Hgrid|Hconv].
  - eexists. apply realign_empty_grid; auto; lia.
  - destruct (adapt convert (mode src) RGBA) as [conv|] eqn:E;
      [|congruence].
    destruct (realign_pixel_at convert fw fh yoff src conv Hwf Hfw Hfh E)
      as (out & Hout & _).
    now exists out.
Qed.

(** C8.  Whatever the mode of the source, a run that reads a sheet it can
    process (no cells, or a mode the library converts) and may write the
    output path saves one file, at the output path, holding an RGBA
    image; the other files are as they were. *)
Theorem main_saves_rgba convert (w : World) (src : Image) :
  files w Config.input_path = Some (ImageFile src) ->
  wf_image src = true ->
  grid_cells Config.frame_width Config.frame_height src = []
  \/ adapt convert (mode src) RGBA <> None ->
  writable w Config.output_path = true ->
  exists out w',
    main convert w = (Ok tt, w')
    /\ files w' Config.output_path = Some (ImageFile out)
    /\ mode out = RGBA
    /\ forall p, p <> Config.output_path -> files w' p = files w p.
Proof.
  intros Hfile Hwf Hruns Hwr.
  destruct (realign_runs convert Config.frame_width Config.frame_height
              Config.y_offset src Hwf eq_refl eq_refl Hruns) as (out & Hout).
  pose proof (main_saves convert w src out Hfile Hout Hwr) as Hmain.
  destruct (main_returns convert w _ Hmain)
    as (src' & out' & Hfile' & Hout' & Hsaved & Hothers).
  rewrite Hfile in Hfile'. injection Hfile' as <-.
  rewrite Hout in Hout'. injection Hout' as <-.
  exists out. eexists. split; [exact Hmain|]. split; [exact Hsaved|].
  split; [|exact Hothers].
  apply realign_shape in Hout. apply Hout.
Qed.

(** C9.  A run that fails before [save] (the source is missing or is not
    an image, or the grid processing raises) ends with that exception and
    the world it started in: the file at the output path is what it was,
    present or absent. *)
Theorem failure_before_save_writes_nothing convert (w w' : World) (e : exn) :
  build_sheet convert w = (Raise e, w') ->
  main convert w = (Raise e, w)
  /\ files (snd (main convert w)) Config.output_path
     = files w Config.output_path.
Proof.
  intros Hfail.
  assert (Hmain : main convert w = (Raise e, w)).
  { pose proof (build_sheet_reads_only convert w w' _ Hfail) as ->.
    unfold main, bindM. now rewrite Hfail. }
  split; [exact Hmain|]. now rewrite Hmain.
Qed.

(** C10.  On a sheet narrower or lower than a frame there are no cells;
    the run succeeds and saves an image of the sheet's size whose pixels
    are all the transparent pixel (0, 0, 0, 0). *)
Theorem main_on_sheet_smaller_than_a_frame convert (w : World)
        (src : Image) :
  files w Config.input_path = Some (ImageFile src) ->
  wf_image src = true ->
  width src < Config.frame_width \/ height src < Config.frame_height ->
  writable w Config.output_path = true ->
  (width src / Config.frame_width = 0 \/ height src / Config.frame_height = 0)
  /\ grid_cells Config.frame_width Config.frame_height src = []
  /\ exists out w',
       main convert w = (Ok tt, w')
       /\ files w' Config.output_path = Some (ImageFile out)
       /\ width out = width src /\ height out = height src
       /\ forall X Y,
            inside out X Y = true ->
            exists p,
              pixel_at out X Y = Some p /\ p = [0; 0; 0; 0] /\ alpha p = 0.
Proof.
  intros Hfile Hwf Hsmall Hwr. destruct (wf_image_size src Hwf) as [HW HH].
  assert (Hzero : width src / Config.frame_width = 0
                  \/ height src / Config.frame_height = 0).
  { destruct Hsmall; [left | right]; apply Z.div_small; lia. }
  assert (Hgrid : grid_cells Config.frame_width Config.frame_height src = [])
    by (apply grid_cells_nil; lia).
  split; [exact Hzero|]. split; [exact Hgrid|].
  pose proof (realign_empty_grid convert Config.frame_width
                Config.frame_height Config.y_offset src Hwf
                ltac:(discriminate) ltac:(discriminate) Hgrid) as Hout.
  pose proof (main_saves convert w src _ Hfile Hout Hwr) as Hmain.
  eexists. eexists. split; [exact Hmain|]. cbn [files width height].
  rewrite String.eqb_refl. split; [reflexivity|].
  split; [reflexivity|]. split; [reflexivity|].
  intros X Y Hin. exists [0; 0; 0; 0]. rewrite pixel_at_raster.
  unfold inside in Hin. cbn [width height] in Hin. rewrite Hin.
  split; [reflexivity|]. split; reflexivity.
Qed.

(** Two ways to fail before [save]: no source file, and a source that is
    not an image, here with a stale output file in place. *)
Example missing_source_fails :
  build_sheet sample_convert empty_world
  = (Raise FileNotFoundError, empty_world).
Proof. reflexivity. Qed.

Example undecodable_source_fails :
  build_sheet sample_convert (stale_world OtherFile)
  = (Raise UnidentifiedImageError, stale_world OtherFile).
Proof. reflexivity. Qed.

(** ** The claims on sample inputs *)


Ltac sample_bounds := cbn; lia.

Lemma small_sheet_valid :
  wf_image small_sheet = true
  /\ adapt sample_convert (mode small_sheet) RGBA = Some (fun p => p).
Proof. split; reflexivity. Defined.





Lemma small_sheets_agree_on_kept_rows (row col x sy : Z) :
  0 <= row < height small_sheet / 2 -> 0 <= col < width small_sheet / 2 ->
  0 <= x < 2 -> 0 <= sy < 2 -> 0 <= sy + 1 < 2 ->
  pixel_at small_sheet (col * 2 + x) (row * 2 + sy)
  = pixel_at small_sheet' (col * 2 + x) (row * 2 + sy).
Proof.
  change (height small_sheet / 2) with 2.
  change (width small_sheet / 2) with 2. intros Hr Hc Hx Hsy Hkept.
  assert (sy = 0) as -> by lia.
  assert (row = 0 \/ row = 1) as [-> | ->] by lia;
    assert (col = 0 \/ col = 1) as [-> | ->] by lia;
    assert (x = 0 \/ x = 1) as [-> | ->] by lia; reflexivity.
Defined.

Lemma realign_order_irrelevant_small_sheet :
  Permutation [(1, 1); (1, 0); (0, 1); (0, 0)] (grid_cells 2 2 small_sheet)
  /\ realign_in_order sample_convert 2 2 1
       [(1, 1); (1, 0); (0, 1); (0, 0)] small_sheet
     = realign sample_convert 2 2 1 small_sheet.
Proof.
  assert (HP : Permutation [(1, 1); (1, 0); (0, 1); (0, 0)]
                 (grid_cells 2 2 small_sheet))
    by exact (Permutation_sym
                (Permutation_rev [(0, 0); (0, 1); (1, 0); (1, 1)])).
  split; [exact HP|].
  exact (realign_order_irrelevant sample_convert 2 2 1 small_sheet _ HP).
Defined.

Lemma main_saves_rgba_rgb_sheet :
  files (stale_world (ImageFile rgb_sheet)) Config.input_path
  = Some (ImageFile rgb_sheet)
  /\ wf_image rgb_sheet = true
  /\ adapt sample_convert (mode rgb_sheet) RGBA <> None
  /\ writable (stale_world (ImageFile rgb_sheet)) Config.output_path = true
  /\ exists out w',
       main sample_convert (stale_world (ImageFile rgb_sheet)) = (Ok tt, w')
       /\ files w' Config.output_path = Some (ImageFile out)
       /\ mode out = RGBA.
Proof.
  assert (Hwf : wf_image rgb_sheet = true) by (vm_compute; reflexivity).
  assert (Hconv : adapt sample_convert (mode rgb_sheet) RGBA <> None)
    by (cbn; discriminate).
  split; [reflexivity|]. split; [exact Hwf|]. split; [exact Hconv|].
  split; [reflexivity|].
  destruct (main_saves_rgba sample_convert (stale_world (ImageFile rgb_sheet))
              rgb_sheet eq_refl Hwf (or_intror Hconv) eq_refl)
    as (out & w' & Hmain & Hfile & Hmode & _).
  exists out, w'. auto.
Defined.

Lemma failure_before_save_writes_nothing_undecodable :
  build_sheet sample_convert (stale_world OtherFile)
  = (Raise UnidentifiedImageError, stale_world OtherFile)
  /\ main sample_convert (stale_world OtherFile)
     = (Raise UnidentifiedImageError, stale_world OtherFile)
  /\ files (snd (main sample_convert (stale_world OtherFile)))
       Config.output_path
     = Some (ImageFile small_sheet).
Proof.
  assert (Hfail : build_sheet sample_convert (stale_world OtherFile)
                  = (Raise UnidentifiedImageError, stale_world OtherFile))
    by reflexivity.
  destruct (failure_before_save_writes_nothing sample_convert _ _ _ Hfail)
    as [Hmain Hfile].
  split; [exact Hfail|]. split; [exact Hmain|]. rewrite Hfile. reflexivity.
Defined.

Lemma main_on_narrow_sheet :
  files (world_with narrow_sheet) Config.input_path
  = Some (ImageFile narrow_sheet)
  /\ wf_image narrow_sheet = true
  /\ width narrow_sheet < Config.frame_width
  /\ writable (world_with narrow_sheet) Config.output_path = true
  /\ exists out w',
       main sample_convert (world_with narrow_sheet) = (Ok tt, w')
       /\ files w' Config.output_path = Some (ImageFile out)
       /\ width out = 3 /\ height out = 70
       /\ pixel_at out 2 69 = Some [0; 0; 0; 0].
Proof.
  assert (Hwf : wf_image narrow_sheet = true) by (vm_compute; reflexivity).
  assert (Hnarrow : width narrow_sheet < Config.frame_width) by reflexivity.
  split; [reflexivity|]. split; [exact Hwf|]. split; [exact Hnarrow|].
  split; [reflexivity|].
  destruct (main_on_sheet_smaller_than_a_frame sample_convert
              (world_with narrow_sheet) narrow_sheet eq_refl Hwf
              (or_introl Hnarrow) eq_refl)
    as (_ & _ & out & w' & Hmain & Hfile & HW & HH & Hpix).
  exists out, w'. split; [exact Hmain|]. split; [exact Hfile|].
  split; [exact HW|]. split; [exact HH|].
  destruct (Hpix 2 69) as (p & Hp & -> & _).
  - unfold inside. rewrite HW, HH. reflexivity.
  - exact Hp.
Defined.

(** ** Further properties of the transform *)

(** With a cell to process and no conversion from the sheet's mode, the
    first iteration raises. *)
Lemma realign_unconvertible convert fw fh yoff (src : Image) :
  wf_image src = true -> fw <> 0 -> fh <> 0 ->
  grid_cells fw fh src <> [] ->
  adapt convert (mode src) RGBA = None ->
  realign convert fw fh yoff src = Raise ValueError.
Proof.
  intros Hwf Hfw Hfh Hgrid Hnone.
  destruct (wf_image_size src Hwf) as [HW HH].
  rewrite realign_in_grid_order.
  unfold realign_in_order, floordiv, Image_new. cbn [size].
  replace (fw =? 0) with false by zbool.
  replace (fh =? 0) with false by zbool.
  replace ((width src <? 0) || (height src <? 0)) with false by zbool.
  cbn [bind].
  destruct (grid_cells fw fh src) as [|[row col] cells]; [congruence|].
  cbn [for_each fst snd].
  now rewrite realign_cell_unconvertible by assumption.
Qed.

(** The copy with an offset of a frame height or more, down or up,
    leaves the blank sheet. *)
Lemma realign_offset_beyond_frame convert fw fh yoff (src : Image)
        (conv : pixel -> pixel) :
  wf_image src = true -> 0 < fw -> 0 < fh ->
  adapt convert (mode src) RGBA = Some conv ->
  fh <= yoff \/ yoff <= - fh ->
  realign convert fw fh yoff src
  = Ok (mkImage RGBA (width src) (height src)
          (raster (width src) (height src) (fun _ _ => [0; 0; 0; 0]))).
Proof.
  intros Hwf Hfw Hfh Hconv Hbig. destruct (wf_image_size src Hwf) as [HW HH].
  destruct (realign_raster convert fw fh yoff src conv Hconv Hfw Hfh HW HH)
    as (g & -> & Hpix).
  f_equal. f_equal. apply raster_ext. intros X Y HX HY.
  rewrite Hpix by assumption.
  destruct ((X <? width src / fw * fw) && (Y <? height src / fh * fh));
    [|reflexivity].
  unfold shifted. pose proof (Z.mod_pos_bound Y fh Hfh).
  replace ((yoff <=? Y mod fh) && (Y mod fh <? yoff + fh)) with false;
    [reflexivity|].
  symmetry. apply andb_false_iff.
  destruct Hbig; [left | right]; zbool.
Qed.

(** Two sheets with one conversion that agree on a cell of the grid have
    outputs that agree on that cell. *)
Lemma realign_cell_local convert fw fh yoff (src src' : Image)
        (conv : pixel -> pixel) (row col : Z) :
  wf_image src = true -> wf_image src' = true -> 0 < fw -> 0 < fh ->
  adapt convert (mode src) RGBA = Some conv ->
  mode src' = mode src -> width src' = width src ->
  height src' = height src ->
  0 <= row < height src / fh -> 0 <= col < width src / fw ->
  (forall x y, 0 <= x < fw -> 0 <= y < fh ->
     pixel_at src (col * fw + x) (row * fh + y)
     = pixel_at src' (col * fw + x) (row * fh + y)) ->
  exists out out',
    realign convert fw fh yoff src = Ok out
    /\ realign convert fw fh yoff src' = Ok out'
    /\ forall x y, 0 <= x < fw -> 0 <= y < fh ->
         pixel_at out (col * fw + x) (row * fh + y)
         = pixel_at out' (col * fw + x) (row * fh + y).
Proof.
  intros Hwf Hwf' Hfw Hfh Hconv Hmode HW HH Hr Hc Hagree.
  assert (Hconv' : adapt convert (mode src') RGBA = Some conv)
    by now rewrite Hmode.
  destruct (realign_cell_pixel convert fw fh yoff src conv Hwf Hfw Hfh Hconv)
    as (out & Hout & Hpix).
  destruct (realign_cell_pixel convert fw fh yoff src' conv Hwf' Hfw Hfh
              Hconv') as (out' & Hout' & Hpix').
  exists out, out'. split; [exact Hout|]. split; [exact Hout'|].
  intros x y Hx Hy. rewrite Hpix by assumption.
  rewrite Hpix' by (rewrite ?HW, ?HH; assumption).
  destruct ((yoff <=? y) && (y <? yoff + fh)) eqn:Ekept; [|reflexivity].
  unbool. f_equal. f_equal. apply load_agree; [exact Hmode|].
  apply Hagree; lia.
Qed.

(** ** Running the transform on its own output *)

(** A second run, with offset [b], on the output of a run with offset
    [a]: a pixel of the sheet survives both shifts or is transparent. *)
Lemma realign_twice_raster convert fw fh a b (src : Image)
      (conv : pixel -> pixel) :
  wf_image src = true -> 0 < fw -> 0 < fh ->
  adapt convert (mode src) RGBA = Some conv ->
  exists out g,
    realign convert fw fh a src = Ok out
    /\ realign convert fw fh b out
       = Ok (mkImage RGBA (width src) (height src)
               (raster (width src) (height src) g))
    /\ forall X Y, 0 <= X < width src -> 0 <= Y < height src ->
         g X Y
         = if (X <? width src / fw * fw) && (Y <? height src / fh * fh)
           then if (b <=? Y mod fh) && (Y mod fh <? b + fh)
                   && (a <=? Y mod fh - b) && (Y mod fh - b <? a + fh)
                then conv (load src X (Y - b - a))
                else [0; 0; 0; 0]
           else [0; 0; 0; 0].
Proof.
  intros Hwf Hfw Hfh Hconv. destruct (wf_image_size src Hwf) as [HW HH].
  destruct (realign_raster convert fw fh a src conv Hconv Hfw Hfh HW HH)
    as (g1 & Hout1 & Hg1).
  set (out := mkImage RGBA (width src) (height src)
                (raster (width src) (height src) g1)) in *.
  destruct (realign_raster convert fw fh b out (fun p => p)
              (adapt_same convert RGBA) Hfw Hfh HW HH) as (g2 & Hout2 & Hg2).
  cbn [out width height] in Hout2, Hg2.
  exists out, g2. split; [exact Hout1|]. split; [exact Hout2|].
  intros X Y HX HY. rewrite Hg2 by assumption.
  destruct ((X <? width src / fw * fw) && (Y <? height src / fh * fh))
    eqn:Egrid; [|reflexivity].
  unfold shifted at 1.
  destruct ((b <=? Y mod fh) && (Y mod fh <? b + fh)) eqn:Eb;
    [|reflexivity].
  cbn [andb]. unbool.
  pose proof (Z.div_mod Y fh ltac:(lia)) as HY'.
  pose proof (Z.mod_pos_bound Y fh Hfh) as Hy.
  pose proof (whole_frames (height src) fh Hfh) as Hrows.
  assert (Hq : 0 <= Y / fh < height src / fh).
  { split; [apply Z.div_pos; lia | apply Z.div_lt_upper_bound; lia]. }
  assert (Hcell : Y / fh * fh <= Y - b < Y / fh * fh + fh) by lia.
  assert (Hin : 0 <= Y - b < height src / fh * fh) by nia.
  unfold out. rewrite load_raster by lia. rewrite Hg1 by lia.
  replace ((X <? width src / fw * fw) && (Y - b <? height src / fh * fh))
    with true by zbool.
  unfold shifted. rewrite (row_in_cell fh (Y / fh) (Y - b) Hfh Hcell).
  replace (Y - b - Y / fh * fh) with (Y mod fh - b) by lia.
  reflexivity.
Qed.

(** For the copy, offsets of the same direction add up. *)
Lemma realign_offsets_add convert fw fh a b (src : Image)
        (conv : pixel -> pixel) :
  wf_image src = true -> 0 < fw -> 0 < fh ->
  adapt convert (mode src) RGBA = Some conv ->
  (0 <= a /\ 0 <= b) \/ (a <= 0 /\ b <= 0) ->
  exists out,
    realign convert fw fh a src = Ok out
    /\ realign convert fw fh b out = realign convert fw fh (a + b) src.
Proof.
  intros Hwf Hfw Hfh Hconv Hsign. destruct (wf_image_size src Hwf) as [HW HH].
  destruct (realign_twice_raster convert fw fh a b src conv Hwf Hfw Hfh Hconv)
    as (out & g & Hout & Hback & Hg).
  exists out. split; [exact Hout|]. rewrite Hback.
  destruct (realign_raster convert fw fh (a + b) src conv Hconv Hfw Hfh
              HW HH) as (g' & -> & Hg').
  f_equal. f_equal. apply raster_ext. intros X Y HX HY.
  rewrite Hg, Hg' by assumption.
  destruct ((X <? width src / fw * fw) && (Y <? height src / fh * fh));
    [|reflexivity].
  unfold shifted. pose proof (Z.mod_pos_bound Y fh Hfh) as Hy.
  replace (Y - b - a) with (Y - (a + b)) by lia.
  replace ((b <=? Y mod fh) && (Y mod fh <? b + fh)
           && (a <=? Y mod fh - b) && (Y mod fh - b <? a + fh))
    with ((a + b <=? Y mod fh) && (Y mod fh <? a + b + fh));
    [reflexivity|].
  destruct (Z.leb_spec (a + b) (Y mod fh)),
    (Z.ltb_spec (Y mod fh) (a + b + fh)),
    (Z.leb_spec b (Y mod fh)), (Z.ltb_spec (Y mod fh) (b + fh)),
    (Z.leb_spec a (Y mod fh - b)), (Z.ltb_spec (Y mod fh - b) (a + fh));
    cbn [andb]; try reflexivity; lia.
Qed.

(** For the copy, a shift by [a >= 0] and a shift by [-a]: each cell
    keeps its rows [y < fh - a] and loses the last [a]. *)
Lemma realign_there_and_back convert fw fh a (src : Image)
        (conv : pixel -> pixel) :
  wf_image src = true -> 0 < fw -> 0 < fh ->
  adapt convert (mode src) RGBA = Some conv ->
  0 <= a ->
  exists out back,
    realign convert fw fh a src = Ok out
    /\ realign convert fw fh (- a) out = Ok back
    /\ forall row col x y,
         0 <= row < height src / fh -> 0 <= col < width src / fw ->
         0 <= x < fw -> 0 <= y < fh ->
         pixel_at back (col * fw + x) (row * fh + y)
         = if y <? fh - a
           then option_map conv
                  (pixel_at src (col * fw + x) (row * fh + y))
           else Some [0; 0; 0; 0].
Proof.
  intros Hwf Hfw Hfh Hconv Ha.
  destruct (realign_twice_raster convert fw fh a (- a) src conv
              Hwf Hfw Hfh Hconv) as (out & g & Hout & Hback & Hg).
  exists out. eexists. split; [exact Hout|]. split; [exact Hback|].
  intros row col x y Hr Hc Hx Hy.
  pose proof (cell_point_bounds fw fh src row col x y Hfw Hfh Hr Hc Hx Hy)
    as Hb.
  rewrite pixel_at_raster.
  replace ((0 <=? col * fw + x) && (col * fw + x <? width src)
           && (0 <=? row * fh + y) && (row * fh + y <? height src))
    with true by zbool.
  rewrite Hg by lia.
  replace ((col * fw + x <? width src / fw * fw)
           && (row * fh + y <? height src / fh * fh)) with true by zbool.
  rewrite (row_in_cell fh row (row * fh + y)) by lia.
  replace (row * fh + y - row * fh) with y by lia.
  replace (row * fh + y - - a - a) with (row * fh + y) by lia.
  destruct (Z.ltb_spec y (fh - a)) as [Hkeep|Hdrop].
  - replace ((- a <=? y) && (y <? - a + fh) && (a <=? y - - a)
             && (y - - a <? a + fh)) with true by zbool.
    rewrite (wf_image_load src) by (try assumption; unfold inside; zbool).
    reflexivity.
  - replace ((- a <=? y) && (y <? - a + fh)) with false; [reflexivity|].
    symmetry. apply andb_false_iff. right. zbool.
Qed.

(** A well-formed image is the raster of its pixels. *)
Lemma wf_image_eta (im : Image) :
  wf_image im = true ->
  im = mkImage (mode im) (width im) (height im)
         (raster (width im) (height im) (load im)).
Proof.
  intros Hwf. pose proof Hwf as Hwf0.
  destruct im as [m w h d]. unfold wf_image in Hwf.
  cbn [mode width height data] in *.
  apply andb_prop in Hwf. destruct Hwf as [Hwf Hrows].
  apply andb_prop in Hwf. destruct Hwf as [Hwf Hlen].
  apply Nat.eqb_eq in Hlen. unbool.
  f_equal. apply nth_error_ext. intros n.
  unfold raster. rewrite nth_error_map, nth_error_range.
  destruct (Z.ltb_spec (Z.of_nat n) h) as [Hn|Hn]; cbn [option_map].
  - destruct (nth_error d n) as [r|] eqn:Er;
      [|apply nth_error_None in Er; lia].
    f_equal.
    assert (Hr : length r = Z.to_nat w).
    { apply Nat.eqb_eq. eapply forallb_forall in Hrows; [exact Hrows|].
      eapply nth_error_In; eassumption. }
    apply nth_error_ext. intros k.
    rewrite nth_error_map, nth_error_range.
    destruct (Z.ltb_spec (Z.of_nat k) w) as [Hk|Hk]; cbn [option_map].
    + unfold load, pixel_at, inside. cbn [width height data].
      replace ((0 <=? Z.of_nat k) && (Z.of_nat k <? w)
               && (0 <=? Z.of_nat n) && (Z.of_nat n <? h)) with true
        by zbool.
      rewrite !Nat2Z.id, Er.
      destruct (nth_error r k) as [p|] eqn:Ep; [reflexivity|].
      apply nth_error_None in Ep. lia.
    + apply nth_error_None. lia.
  - apply nth_error_None. lia.
Qed.

(** X7.  With offset 0 the transform gives back an RGBA sheet made of
    whole frames: the output is the source itself. *)
Theorem realign_zero_offset convert fw fh (src : Image) :
  wf_image src = true -> mode src = RGBA -> 0 < fw -> 0 < fh ->
  width src mod fw = 0 -> height src mod fh = 0 ->
  realign convert fw fh 0 src = Ok src.
Proof.
  intros Hwf Hmode Hfw Hfh Hcols Hrows.
  destruct (wf_image_size src Hwf) as [HW HH].
  assert (Hconv : adapt convert (mode src) RGBA = Some (fun p => p))
    by (rewrite Hmode; apply adapt_same).
  destruct (realign_raster convert fw fh 0 src (fun p => p) Hconv Hfw Hfh
              HW HH) as (g & -> & Hg).
  rewrite (wf_image_eta src Hwf) at 5. rewrite Hmode.
  f_equal. f_equal. apply raster_ext. intros X Y HX HY.
  rewrite Hg by assumption.
  pose proof (Z.div_mod (width src) fw ltac:(lia)).
  pose proof (Z.div_mod (height src) fh ltac:(lia)).
  replace ((X <? width src / fw * fw) && (Y <? height src / fh * fh))
    with true by zbool.
  unfold shifted. pose proof (Z.mod_pos_bound Y fh Hfh).
  replace ((0 <=? Y mod fh) && (Y mod fh <? 0 + fh)) with true by zbool.
  now rewrite Z.sub_0_r.
Qed.

(** ** Further properties of the script *)

Lemma main_unfold convert (w : World) (src : Image) :
  files w Config.input_path = Some (ImageFile src) ->
  main convert w
  = match realign convert Config.frame_width Config.frame_height
            Config.y_offset src with
    | Raise e => (Raise e, w)
    | Ok out =>
        if writable w Config.output_path
        then (Ok tt,
              mkWorld (fun p => if String.eqb p Config.output_path
                                then Some (ImageFile out) else files w p)
                      (writable w)
                      (stdout w
                       ++ [("Spritesheet corregido con offset guardado en: "
                            ++ Config.output_path)%string]))
        else (Raise PermissionError, w)
    end.
Proof.
  intros Hfile.
  unfold main, build_sheet, bindM, Image_open, lift, save, print.
  rewrite Hfile. destruct (realign convert _ _ _ src); [|reflexivity].
  destruct (writable w Config.output_path); reflexivity.
Qed.

(** X8.  The script prints its one line, naming the output path, when
    it succeeds and prints nothing when it raises. *)
Theorem main_prints_on_success_only convert (w : World) :
  stdout (snd (main convert w))
  = match fst (main convert w) with
    | Ok _ => stdout w ++ [("Spritesheet corregido con offset guardado en: "
                            ++ Config.output_path)%string]
    | Raise _ => stdout w
    end.
Proof.
  unfold main, build_sheet, bindM, Image_open, lift, save, print.
  destruct (files w Config.input_path) as [[src|]|]; try reflexivity.
  destruct (realign convert _ _ _ src); [|reflexivity].
  destruct (writable w Config.output_path); reflexivity.
Qed.

(** X9.  Whether it succeeds or raises, the script leaves the source
    file and every file other than the output path as they were. *)
Theorem main_touches_only_output convert (w : World) :
  files (snd (main convert w)) Config.input_path
  = files w Config.input_path
  /\ forall p, p <> Config.output_path ->
       files (snd (main convert w)) p = files w p.
Proof.
  assert (Hothers : forall p, p <> Config.output_path ->
                      files (snd (main convert w)) p = files w p).
  { intros p Hp. apply String.eqb_neq in Hp.
    unfold main, build_sheet, bindM, Image_open, lift, save, print.
    destruct (files w Config.input_path) as [[src|]|]; try reflexivity.
    destruct (realign convert _ _ _ src); [|reflexivity].
    destruct (writable w Config.output_path); [|reflexivity].
    cbn [snd files]. now rewrite Hp. }
  split; [|exact Hothers]. apply Hothers. discriminate.
Qed.

(** X10.  On a world whose source file is a well-formed sheet, the
    script succeeds exactly when the sheet can be processed (it has no
    whole frame, or the library converts its mode to RGBA) and the output
    path can be written; what a successful run saves is the transform of
    the source. *)
Theorem main_succeeds_iff convert (w : World) (src : Image) :
  files w Config.input_path = Some (ImageFile src) ->
  wf_image src = true ->
  ((exists w', main convert w = (Ok tt, w'))
   <-> (grid_cells Config.frame_width Config.frame_height src = []
        \/ adapt convert (mode src) RGBA <> None)
       /\ writable w Config.output_path = true)
  /\ forall w', main convert w = (Ok tt, w') ->
       exists out,
         realign convert Config.frame_width Config.frame_height
           Config.y_offset src = Ok out
         /\ files w' Config.output_path = Some (ImageFile out).
Proof.
  intros Hfile Hwf. split; [split|].
  - intros [w' Hmain]. rewrite (main_unfold convert w src Hfile) in Hmain.
    destruct (realign convert _ _ _ src) as [out|e] eqn:Hrun;
      [|discriminate].
    destruct (writable w Config.output_path); [|discriminate].
    split; [|reflexivity].
    destruct (grid_cells Config.frame_width Config.frame_height src)
      as [|cell cells] eqn:Egrid; [now left|]. right.
    intros Hnone.
    rewrite (realign_unconvertible convert Config.frame_width
               Config.frame_height Config.y_offset src) in Hrun;
      try discriminate; try assumption.
    rewrite Egrid. discriminate.
  - intros [Hruns Hwr].
    destruct (realign_runs convert Config.frame_width Config.frame_height
                Config.y_offset src Hwf eq_refl eq_refl Hruns) as (out & Hout).
    eexists. exact (main_saves convert w src out Hfile Hout Hwr).
  - intros w' Hmain.
    destruct (main_returns convert w w' Hmain)
      as (src' & out & Hfile' & Hout & Hsaved & _).
    rewrite Hfile in Hfile'. injection Hfile' as <-.
    exists out. auto.
Qed.

(** ** The further properties on sample inputs *)

Lemma small_sheets_agree_on_left_cell (x y : Z) :
  0 <= x < 2 -> 0 <= y < 2 ->
  pixel_at small_sheet (0 * 2 + x) (1 * 2 + y)
  = pixel_at small_sheet_left (0 * 2 + x) (1 * 2 + y).
Proof.
  intros Hx Hy.
  assert (x = 0 \/ x = 1) as [-> | ->] by lia;
    assert (y = 0 \/ y = 1) as [-> | ->] by lia; reflexivity.
Defined.

Lemma realign_zero_offset_small_sheet :
  wf_image small_sheet = true /\ mode small_sheet = RGBA
  /\ 0 < 5 /\ 0 < 2
  /\ width small_sheet mod 5 = 0 /\ height small_sheet mod 2 = 0
  /\ realign sample_convert 5 2 0 small_sheet = Ok small_sheet.
Proof.
  destruct small_sheet_valid as [Hwf _].
  split; [exact Hwf|]. split; [reflexivity|]. split; [lia|]. split; [lia|].
  split; [reflexivity|]. split; [reflexivity|].
  exact (realign_zero_offset sample_convert 5 2 small_sheet Hwf eq_refl
           ltac:(lia) ltac:(lia) eq_refl eq_refl).
Defined.

Lemma main_succeeds_iff_rgb_sheet :
  files (stale_world (ImageFile rgb_sheet)) Config.input_path
  = Some (ImageFile rgb_sheet)
  /\ wf_image rgb_sheet = true
  /\ adapt sample_convert (mode rgb_sheet) RGBA <> None
  /\ writable (stale_world (ImageFile rgb_sheet)) Config.output_path = true
  /\ exists w',
       main sample_convert (stale_world (ImageFile rgb_sheet)) = (Ok tt, w').
Proof.
  assert (Hwf : wf_image rgb_sheet = true) by (vm_compute; reflexivity).
  assert (Hconv : adapt sample_convert (mode rgb_sheet) RGBA <> None)
    by (cbn; discriminate).
  split; [reflexivity|]. split; [exact Hwf|]. split; [exact Hconv|].
  split; [reflexivity|].
  destruct (main_succeeds_iff sample_convert
              (stale_world (ImageFile rgb_sheet)) rgb_sheet eq_refl Hwf)
    as [[_ Hruns] _].
  exact (Hruns (conj (or_intror Hconv) eq_refl)).
Defined.

(** ** The transform for every integer configuration *)

Lemma c_int_spec (z : Z) :
  c_int z = true <-> -2147483648 <= z <= 2147483647.
Proof. unfold c_int. rewrite andb_true_iff, !Z.leb_le. reflexivity. Qed.

Lemma with_c_ints_fit {A : Type} (args : list Z) (r : result A) :
  forallb c_int args = true -> with_c_ints args r = r.
Proof.
  intros Hfit. unfold with_c_ints. destruct r; [now rewrite Hfit|].
  reflexivity.
Qed.

(** Every listed integer is a C int. *)
Ltac c_ints :=
  repeat match goal with
  | H : c_int _ = true |- _ => apply c_int_spec in H
  end;
  cbn [forallb fst snd width height]; rewrite ?andb_true_r;
  unfold c_int; zbool.

Lemma for_each_ext_in {A S : Type} (xs : list A)
      (f g : A -> S -> result S) :
  (forall x, In x xs -> forall s, f x s = g x s) ->
  forall s, for_each xs f s = for_each xs g s.
Proof.
  induction xs as [|x xs IH]; intros Hfg s; [reflexivity|].
  cbn [for_each]. rewrite (Hfg x (or_introl eq_refl)).
  destruct (g x s); [|reflexivity]. cbn [bind].
  apply IH. intros y Hy. apply Hfg. now right.
Qed.

(** The run as one loop over the cells of the grid. *)
Lemma realign32_cells convert fw fh yoff (src : Image) :
  fw <> 0 -> fh <> 0 ->
  realign32 convert fw fh yoff src
  = new_sheet <- Image_new32 RGBA (width src, height src) [0; 0; 0; 0] ;;
    for_each (grid_cells fw fh src)
      (fun cell s =>
         realign_cell32 convert fw fh yoff src s (fst cell) (snd cell))
      new_sheet.
Proof.
  intros Hfw Hfh. unfold realign32, floordiv, grid_cells. cbn [size].
  replace (fw =? 0) with false by zbool.
  replace (fh =? 0) with false by zbool. cbn [bind].
  destruct (Image_new32 RGBA (width src, height src) [0; 0; 0; 0]);
    [|reflexivity].
  cbn [bind]. apply for_each_nested.
Qed.

(** The boxes of a cell of the grid lie inside the sheet. *)
Lemma grid_cell_inside (fw fh : Z) (src : Image) (row col : Z) :
  wf_image src = true -> In (row, col) (grid_cells fw fh src) ->
  0 < fw /\ 0 < fh /\ 0 <= row /\ 0 <= col
  /\ col * fw + fw <= width src /\ row * fh + fh <= height src.
Proof.
  intros Hwf Hin. destruct (wf_image_size src Hwf) as [HW HH].
  apply in_grid_cells in Hin. destruct Hin as [Hr Hc].
  assert (Hfw : 0 < fw) by (apply (div_pos_divisor (width src)); lia).
  assert (Hfh : 0 < fh) by (apply (div_pos_divisor (height src)); lia).
  pose proof (whole_frames (width src) fw Hfw).
  pose proof (whole_frames (height src) fh Hfh).
  repeat split; try lia; nia.
Qed.

Section Cell32.

Variable convert : Mode -> Mode -> option (pixel -> pixel).
Variables fw fh yoff : Z.
Variables src sheet : Image.
Variables row col : Z.
Hypothesis Hfw : 0 < fw.
Hypothesis Hfh : 0 < fh.
Hypothesis Hrow : 0 <= row.
Hypothesis Hcol : 0 <= col.
Hypothesis Hright : col * fw + fw <= 2147483647.
Hypothesis Hlower : row * fh + fh <= 2147483647.

(** An iteration up to the paste at the offset: the crop and the blank
    frame are C-int calls that succeed. *)
Lemma realign_cell32_unfold :
  realign_cell32 convert fw fh yoff src sheet row col
  = new_frame <-
      paste32 convert
        (mkImage RGBA fw fh (raster fw fh (fun _ _ => [0; 0; 0; 0])))
        (mkImage (mode src) fw fh
           (raster fw fh
              (fun x y => load src (col * fw + x) (row * fh + y))))
        (0, yoff) ;;
    paste32 convert sheet new_frame (col * fw, row * fh).
Proof.
  unfold realign_cell32, crop32, crop, Image_new32, Image_new.
  replace (col * fw + fw <? col * fw) with false by zbool.
  replace (row * fh + fh <? row * fh) with false by zbool.
  replace (col * fw + fw - col * fw) with fw by lia.
  replace (row * fh + fh - row * fh) with fh by lia.
  rewrite with_c_ints_fit by c_ints. cbn [bind].
  replace ((fw <? 0) || (fh <? 0)) with false by zbool.
  rewrite with_c_ints_fit by c_ints. reflexivity.
Qed.

Lemma realign_cell_unfold :
  realign_cell convert fw fh yoff src sheet row col
  = new_frame <-
      paste convert
        (mkImage RGBA fw fh (raster fw fh (fun _ _ => [0; 0; 0; 0])))
        (mkImage (mode src) fw fh
           (raster fw fh
              (fun x y => load src (col * fw + x) (row * fh + y))))
        (0, yoff) ;;
    paste convert sheet new_frame (col * fw, row * fh).
Proof.
  unfold realign_cell, crop, Image_new.
  replace (col * fw + fw <? col * fw) with false by zbool.
  replace (row * fh + fh <? row * fh) with false by zbool.
  replace (col * fw + fw - col * fw) with fw by lia.
  replace (row * fh + fh - row * fh) with fh by lia.
  cbn [bind].
  replace ((fw <? 0) || (fh <? 0)) with false by zbool. reflexivity.
Qed.

(** With an offset the library accepts, the iteration is the copy. *)
Lemma realign_cell32_fits :
  offset_fits fh yoff = true ->
  realign_cell32 convert fw fh yoff src sheet row col
  = realign_cell convert fw fh yoff src sheet row col.
Proof.
  intros Hfits. apply andb_prop in Hfits. destruct Hfits as [Hy0 Hy1].
  rewrite realign_cell32_unfold, realign_cell_unfold.
  unfold paste32 at 1. rewrite with_c_ints_fit by c_ints.
  destruct (paste convert _ _ (0, yoff)) as [new_frame|] eqn:Epaste;
    [|reflexivity].
  cbn [bind]. apply paste_shape in Epaste.
  destruct Epaste as (_ & HW & HH & _). cbn [width height] in HW, HH.
  unfold paste32. rewrite HW, HH. now rewrite with_c_ints_fit by c_ints.
Qed.

(** With an offset the library does not accept, the paste at the offset
    raises once the frame is converted. *)
Lemma realign_cell32_overflow (conv : pixel -> pixel) :
  adapt convert (mode src) RGBA = Some conv ->
  offset_fits fh yoff = false ->
  realign_cell32 convert fw fh yoff src sheet row col = Raise OverflowError.
Proof.
  intros Hconv Hout. unfold offset_fits in Hout.
  rewrite realign_cell32_unfold.
  unfold paste32 at 1, paste. cbn [size mode width height].
  rewrite Hconv. unfold with_c_ints. cbn [forallb].
  replace (0 + fw) with fw by lia.
  destruct (c_int yoff); [|now rewrite andb_false_r].
  cbn [andb] in Hout. rewrite Hout. now rewrite !andb_false_r.
Qed.

(** With no conversion from the sheet's mode, the paste at the offset
    raises before the box is read. *)
Lemma realign_cell32_unconvertible :
  adapt convert (mode src) RGBA = None ->
  realign_cell32 convert fw fh yoff src sheet row col = Raise ValueError.
Proof.
  intros Hnone. rewrite realign_cell32_unfold.
  unfold paste32 at 1, paste. cbn [size mode width height].
  rewrite Hnone. reflexivity.
Qed.

End Cell32.

(** The blank sheet of the run is a C-int call that succeeds. *)
Lemma Image_new32_sheet (src : Image) :
  wf_image src = true ->
  c_int (width src) = true -> c_int (height src) = true ->
  Image_new32 RGBA (width src, height src) [0; 0; 0; 0]
  = Ok (mkImage RGBA (width src) (height src)
          (raster (width src) (height src) (fun _ _ => [0; 0; 0; 0]))).
Proof.
  intros Hwf HW HH. destruct (wf_image_size src Hwf) as [HW0 HH0].
  unfold Image_new32, Image_new.
  replace ((width src <? 0) || (height src <? 0)) with false by zbool.
  now rewrite with_c_ints_fit by c_ints.
Qed.

(** With an offset the library accepts, the run is [realign]. *)
Lemma realign32_fits convert fw fh yoff (src : Image) :
  wf_image src = true ->
  c_int (width src) = true -> c_int (height src) = true ->
  offset_fits fh yoff = true ->
  realign32 convert fw fh yoff src = realign convert fw fh yoff src.
Proof.
  intros Hwf HW HH Hfits.
  destruct (Z.eqb_spec fw 0) as [->|Hfw];
    [unfold realign32, realign, floordiv; reflexivity|].
  destruct (Z.eqb_spec fh 0) as [->|Hfh].
  { unfold realign32, realign, floordiv. cbn [size].
    destruct (fw =? 0); reflexivity. }
  rewrite realign32_cells, realign_in_grid_order by assumption.
  unfold realign_in_order, floordiv. cbn [size].
  replace (fw =? 0) with false by zbool.
  replace (fh =? 0) with false by zbool. cbn [bind].
  rewrite (Image_new32_sheet src Hwf HW HH).
  destruct (wf_image_size src Hwf) as [HW0 HH0]. unfold Image_new.
  replace ((width src <? 0) || (height src <? 0)) with false by zbool.
  cbn [bind]. apply for_each_ext_in. intros [row col] Hin s. cbn [fst snd].
  destruct (grid_cell_inside fw fh src row col Hwf Hin)
    as (Hfw' & Hfh' & Hr & Hc & Hright & Hlower).
  apply c_int_spec in HW, HH.
  apply realign_cell32_fits; try assumption; lia.
Qed.

(** When every iteration raises [e] and there is a cell, the run raises
    [e]. *)
Lemma realign32_first_cell convert fw fh yoff (src : Image) (e : exn) :
  wf_image src = true ->
  c_int (width src) = true -> c_int (height src) = true ->
  grid_cells fw fh src <> [] ->
  (forall row col sheet,
     In (row, col) (grid_cells fw fh src) ->
     realign_cell32 convert fw fh yoff src sheet row col = Raise e) ->
  realign32 convert fw fh yoff src = Raise e.
Proof.
  intros Hwf HW HH Hgrid Hraise.
  destruct (grid_cells fw fh src) as [|[row col] cells] eqn:Egrid;
    [congruence|].
  assert (Hin : In (row, col) (grid_cells fw fh src))
    by (rewrite Egrid; now left).
  destruct (grid_cell_inside fw fh src row col Hwf Hin) as (Hfw & Hfh & _).
  rewrite realign32_cells by lia.
  rewrite (Image_new32_sheet src Hwf HW HH). cbn [bind]. rewrite Egrid.
  cbn [for_each fst snd]. rewrite Hraise; [reflexivity|].
  rewrite <- Egrid. exact Hin.
Qed.

(** Without an offset the library accepts, a run that has a cell to
    process and a conversion for it raises [OverflowError]. *)
Lemma realign32_overflow convert fw fh yoff (src : Image) :
  wf_image src = true ->
  c_int (width src) = true -> c_int (height src) = true ->
  grid_cells fw fh src <> [] ->
  adapt convert (mode src) RGBA <> None ->
  offset_fits fh yoff = false ->
  realign32 convert fw fh yoff src = Raise OverflowError.
Proof.
  intros Hwf HW HH Hgrid Hconv Hout.
  destruct (adapt convert (mode src) RGBA) as [conv|] eqn:Econv;
    [|congruence].
  apply realign32_first_cell; try assumption.
  intros row col sheet Hin.
  destruct (grid_cell_inside fw fh src row col Hwf Hin)
    as (Hfw & Hfh & Hr & Hc & Hright & Hlower).
  apply c_int_spec in HW, HH.
  apply (realign_cell32_overflow convert fw fh yoff src sheet row col)
    with (conv := conv); try assumption; lia.
Qed.

Lemma realign32_unconvertible convert fw fh yoff (src : Image) :
  wf_image src = true ->
  c_int (width src) = true -> c_int (height src) = true ->
  grid_cells fw fh src <> [] ->
  adapt convert (mode src) RGBA = None ->
  realign32 convert fw fh yoff src = Raise ValueError.
Proof.
  intros Hwf HW HH Hgrid Hnone.
  apply realign32_first_cell; try assumption.
  intros row col sheet Hin.
  destruct (grid_cell_inside fw fh src row col Hwf Hin)
    as (Hfw & Hfh & Hr & Hc & Hright & Hlower).
  apply c_int_spec in HW, HH.
  apply realign_cell32_unconvertible; try assumption; lia.
Qed.

(** C5 (as amended).  For every [y_offset] the library accepts
    ([-2^31 <= y_offset] and [y_offset + frame_height <= 2^31 - 1];
    beyond, the paste raises [OverflowError]), negative offsets and offsets
    of a frame height or more included: a source row of a cell whose
    destination row [sy + y_offset] is not in [[0, frame_height)] reaches
    no output pixel (two sheets that differ in such rows only have the
    same output), and an output row [y] of a cell that no kept source row
    lands on ([y - y_offset] not in [[0, frame_height)]) is the
    transparent pixel (0, 0, 0, 0). *)
Theorem realign32_clips_without_wrap convert fw fh yoff (src src' : Image)
        (conv : pixel -> pixel) :
  wf_image src = true -> wf_image src' = true ->
  c_int (width src) = true -> c_int (height src) = true ->
  0 < fw -> 0 < fh -> offset_fits fh yoff = true ->
  adapt convert (mode src) RGBA = Some conv ->
  mode src' = mode src -> width src' = width src ->
  height src' = height src ->
  (forall row col x sy,
     0 <= row < height src / fh -> 0 <= col < width src / fw ->
     0 <= x < fw -> 0 <= sy < fh -> 0 <= sy + yoff < fh ->
     pixel_at src (col * fw + x) (row * fh + sy)
     = pixel_at src' (col * fw + x) (row * fh + sy)) ->
  exists out,
    realign32 convert fw fh yoff src = Ok out
    /\ realign32 convert fw fh yoff src' = Ok out
    /\ forall row col x y,
         0 <= row < height src / fh -> 0 <= col < width src / fw ->
         0 <= x < fw -> 0 <= y < fh -> ~ (0 <= y - yoff < fh) ->
         exists p,
           pixel_at out (col * fw + x) (row * fh + y) = Some p
           /\ p = [0; 0; 0; 0] /\ alpha p = 0.
Proof.
  intros Hwf Hwf' HW HH Hfw Hfh Hfits Hconv Hmode HW' HH' Hagree.
  rewrite (realign32_fits convert fw fh yoff src) by assumption.
  rewrite (realign32_fits convert fw fh yoff src')
    by (rewrite ?HW', ?HH'; assumption).
  exact (realign_clips_without_wrap convert fw fh yoff src src' conv
           Hwf Hwf' Hfw Hfh Hconv Hmode HW' HH' Hagree).
Qed.

(** X1.  The outcomes of the transform on a well-formed sheet: a zero
    frame side raises [ZeroDivisionError]; otherwise an empty grid gives
    the blank sheet, whatever the mode and the offset; with a cell to
    process, a mode the library does not convert raises [ValueError], a
    mode it converts and an offset it does not accept raise
    [OverflowError], and a mode it converts and an offset it accepts give
    an image. *)
Theorem realign32_outcomes convert fw fh yoff (src : Image) :
  wf_image src = true ->
  c_int (width src) = true -> c_int (height src) = true ->
  (fw = 0 \/ fh = 0 ->
   realign32 convert fw fh yoff src = Raise ZeroDivisionError)
  /\ (fw <> 0 -> fh <> 0 -> grid_cells fw fh src = [] ->
      realign32 convert fw fh yoff src
      = Ok (mkImage RGBA (width src) (height src)
              (raster (width src) (height src) (fun _ _ => [0; 0; 0; 0]))))
  /\ (grid_cells fw fh src <> [] ->
      adapt convert (mode src) RGBA = None ->
      realign32 convert fw fh yoff src = Raise ValueError)
  /\ (grid_cells fw fh src <> [] ->
      adapt convert (mode src) RGBA <> None ->
      offset_fits fh yoff = false ->
      realign32 convert fw fh yoff src = Raise OverflowError)
  /\ (grid_cells fw fh src <> [] ->
      adapt convert (mode src) RGBA <> None ->
      offset_fits fh yoff = true ->
      0 < fw /\ 0 < fh
      /\ exists out, realign32 convert fw fh yoff src = Ok out).
Proof.
  intros Hwf HW HH. split; [|split; [|split; [|split]]].
  - intros Hzero. unfold realign32, floordiv. cbn [size].
    destruct (Z.eqb_spec fw 0) as [_|Hfw]; [reflexivity|]. cbn [bind].
    destruct (Z.eqb_spec fh 0) as [_|Hfh]; [reflexivity|]. lia.
  - intros Hfw Hfh Hgrid. rewrite realign32_cells by assumption.
    rewrite (Image_new32_sheet src Hwf HW HH), Hgrid. reflexivity.
  - intros Hgrid Hnone. now apply realign32_unconvertible.
  - intros Hgrid Hconv Hout. now apply realign32_overflow.
  - intros Hgrid Hconv Hfits.
    destruct (grid_cells fw fh src) as [|[row col] cells] eqn:Egrid;
      [congruence|].
    assert (Hin : In (row, col) (grid_cells fw fh src))
      by (rewrite Egrid; now left).
    destruct (grid_cell_inside fw fh src row col Hwf Hin)
      as (Hfw & Hfh & _).
    split; [exact Hfw|]. split; [exact Hfh|].
    rewrite realign32_fits by assumption.
    apply realign_runs; auto.
Qed.

(** X2.  An offset the library accepts that is a frame height or more,
    down or up, erases the sheet: the output is the blank sheet whatever
    the source holds. *)
Theorem realign32_offset_beyond_frame convert fw fh yoff (src : Image)
        (conv : pixel -> pixel) :
  wf_image src = true ->
  c_int (width src) = true -> c_int (height src) = true ->
  0 < fw -> 0 < fh -> offset_fits fh yoff = true ->
  adapt convert (mode src) RGBA = Some conv ->
  fh <= yoff \/ yoff <= - fh ->
  realign32 convert fw fh yoff src
  = Ok (mkImage RGBA (width src) (height src)
          (raster (width src) (height src) (fun _ _ => [0; 0; 0; 0]))).
Proof.
  intros Hwf HW HH Hfw Hfh Hfits Hconv Hbig.
  rewrite realign32_fits by assumption.
  exact (realign_offset_beyond_frame convert fw fh yoff src conv
           Hwf Hfw Hfh Hconv Hbig).
Qed.

(** X3.  Frames of an RGBA sheet do not bleed into one another: two RGBA
    sheets of the same size that agree on a cell of the grid have outputs
    that agree on that cell, for every offset the library accepts and
    whatever the other cells hold. *)
Theorem realign32_cell_local convert fw fh yoff (src src' : Image)
        (row col : Z) :
  wf_image src = true -> wf_image src' = true ->
  c_int (width src) = true -> c_int (height src) = true ->
  mode src = RGBA -> mode src' = RGBA ->
  width src' = width src -> height src' = height src ->
  0 < fw -> 0 < fh -> offset_fits fh yoff = true ->
  0 <= row < height src / fh -> 0 <= col < width src / fw ->
  (forall x y, 0 <= x < fw -> 0 <= y < fh ->
     pixel_at src (col * fw + x) (row * fh + y)
     = pixel_at src' (col * fw + x) (row * fh + y)) ->
  exists out out',
    realign32 convert fw fh yoff src = Ok out
    /\ realign32 convert fw fh yoff src' = Ok out'
    /\ forall x y, 0 <= x < fw -> 0 <= y < fh ->
         pixel_at out (col * fw + x) (row * fh + y)
         = pixel_at out' (col * fw + x) (row * fh + y).
Proof.
  intros Hwf Hwf' HW HH Hmode Hmode' HW' HH' Hfw Hfh Hfits Hr Hc Hagree.
  rewrite (realign32_fits convert fw fh yoff src) by assumption.
  rewrite (realign32_fits convert fw fh yoff src')
    by (rewrite ?HW', ?HH'; assumption).
  assert (Hconv : adapt convert (mode src) RGBA = Some (fun p => p))
    by (rewrite Hmode; apply adapt_same).
  assert (Hsame : mode src' = mode src) by congruence.
  exact (realign_cell_local convert fw fh yoff src src' (fun p => p) row col
           Hwf Hwf' Hfw Hfh Hconv Hsame HW' HH' Hr Hc Hagree).
Qed.

(** X5.  Offsets of the same direction add up when the library accepts
    them and their sum: a run with offset [b] on the output of a run with
    offset [a] gives what one run with offset [a + b] gives on the
    source.  With the script's offset, a second run is a run with
    offset 10. *)
Theorem realign32_offsets_add convert fw fh a b (src : Image)
        (conv : pixel -> pixel) :
  wf_image src = true ->
  c_int (width src) = true -> c_int (height src) = true ->
  0 < fw -> 0 < fh ->
  offset_fits fh a = true -> offset_fits fh b = true ->
  offset_fits fh (a + b) = true ->
  adapt convert (mode src) RGBA = Some conv ->
  (0 <= a /\ 0 <= b) \/ (a <= 0 /\ b <= 0) ->
  exists out,
    realign32 convert fw fh a src = Ok out
    /\ realign32 convert fw fh b out = realign32 convert fw fh (a + b) src.
Proof.
  intros Hwf HW HH Hfw Hfh Ha Hb Hab Hconv Hsign.
  destruct (realign_offsets_add convert fw fh a b src conv Hwf Hfw Hfh
              Hconv Hsign) as (out & Hout & Hsum).
  exists out. rewrite !(realign32_fits convert fw fh _ src) by assumption.
  split; [exact Hout|].
  destruct (realign_shape convert fw fh a src out Hout)
    as (_ & HWo & HHo & Hwfo).
  rewrite realign32_fits by (rewrite ?HWo, ?HHo; assumption).
  exact Hsum.
Qed.

(** X6.  Shifting back does not restore the sheet: after a run with an
    offset [a >= 0] and a run with offset [-a] on its output, both
    offsets accepted by the library, each cell holds its source pixels
    (converted to RGBA) in the rows [y < frame_height - a] and is
    transparent in the last [a] rows. *)
Theorem realign32_there_and_back convert fw fh a (src : Image)
        (conv : pixel -> pixel) :
  wf_image src = true ->
  c_int (width src) = true -> c_int (height src) = true ->
  0 < fw -> 0 < fh ->
  offset_fits fh a = true -> offset_fits fh (- a) = true ->
  adapt convert (mode src) RGBA = Some conv ->
  0 <= a ->
  exists out back,
    realign32 convert fw fh a src = Ok out
    /\ realign32 convert fw fh (- a) out = Ok back
    /\ forall row col x y,
         0 <= row < height src / fh -> 0 <= col < width src / fw ->
         0 <= x < fw -> 0 <= y < fh ->
         pixel_at back (col * fw + x) (row * fh + y)
         = if y <? fh - a
           then option_map conv
                  (pixel_at src (col * fw + x) (row * fh + y))
           else Some [0; 0; 0; 0].
Proof.
  intros Hwf HW HH Hfw Hfh Ha Hma Hconv Hpos.
  destruct (realign_there_and_back convert fw fh a src conv Hwf Hfw Hfh
              Hconv Hpos) as (out & back & Hout & Hback & Hpix).
  exists out, back.
  rewrite (realign32_fits convert fw fh a src) by assumption.
  split; [exact Hout|].
  destruct (realign_shape convert fw fh a src out Hout)
    as (_ & HWo & HHo & Hwfo).
  rewrite realign32_fits by (rewrite ?HWo, ?HHo; assumption).
  split; [exact Hback | exact Hpix].
Qed.

(** ** The transform for every integer configuration, on sample inputs *)

(** C5 as stated fails at offsets beyond the C ints: with 2 x 2 frames
    the run at [y_offset = 2^31 - 1] raises [OverflowError] and gives no
    output, while the run at [y_offset = -2^31] clips every row. *)
Lemma offset_beyond_c_int_raises :
  realign32 sample_convert 2 2 2147483647 small_sheet = Raise OverflowError
  /\ ~ (exists out,
          realign32 sample_convert 2 2 2147483647 small_sheet = Ok out)
  /\ realign32 sample_convert 2 2 (-2147483648) small_sheet
     = Ok (mkImage RGBA 5 4 (raster 5 4 (fun _ _ => [0; 0; 0; 0]))).
Proof.
  assert (Hraise : realign32 sample_convert 2 2 2147483647 small_sheet
                   = Raise OverflowError) by (vm_compute; reflexivity).
  split; [exact Hraise|]. split.
  - intros [out Hout]. rewrite Hraise in Hout. discriminate.
  - vm_compute. reflexivity.
Qed.

Lemma small_sheet_fits :
  c_int (width small_sheet) = true /\ c_int (height small_sheet) = true.
Proof. split; reflexivity. Defined.

Lemma realign32_clips_without_wrap_small_sheets :
  wf_image small_sheet = true /\ wf_image small_sheet' = true
  /\ c_int (width small_sheet) = true /\ c_int (height small_sheet) = true
  /\ 0 < 2 /\ 0 < 2 /\ offset_fits 2 1 = true
  /\ adapt sample_convert (mode small_sheet) RGBA = Some (fun p => p)
  /\ pixel_at small_sheet 0 1 <> pixel_at small_sheet' 0 1
  /\ exists out,
       realign32 sample_convert 2 2 1 small_sheet = Ok out
       /\ realign32 sample_convert 2 2 1 small_sheet' = Ok out
       /\ pixel_at out 0 0 = Some [0; 0; 0; 0].
Proof.
  destruct small_sheet_valid as [Hwf Hconv].
  destruct small_sheet_fits as [HW HH].
  assert (Hfw : 0 < 2) by lia.
  split; [exact Hwf|]. split; [reflexivity|]. split; [exact HW|].
  split; [exact HH|]. split; [exact Hfw|]. split; [exact Hfw|].
  split; [reflexivity|]. split; [exact Hconv|].
  split; [vm_compute; discriminate|].
  destruct (realign32_clips_without_wrap sample_convert 2 2 1 small_sheet
              small_sheet' (fun p => p) Hwf eq_refl HW HH Hfw Hfw eq_refl
              Hconv eq_refl eq_refl eq_refl small_sheets_agree_on_kept_rows)
    as (out & Hout & Hout' & Hpix).
  exists out. split; [exact Hout|]. split; [exact Hout'|].
  destruct (Hpix 0 0 0 0) as (p & Hp & -> & _); try sample_bounds.
  exact Hp.
Defined.

Lemma realign32_outcomes_small_sheet :
  wf_image small_sheet = true
  /\ c_int (width small_sheet) = true /\ c_int (height small_sheet) = true
  /\ grid_cells 2 2 small_sheet <> []
  /\ adapt sample_convert (mode small_sheet) RGBA <> None
  /\ offset_fits 2 2147483647 = false
  /\ realign32 sample_convert 2 2 2147483647 small_sheet
     = Raise OverflowError.
Proof.
  destruct small_sheet_valid as [Hwf _].
  destruct small_sheet_fits as [HW HH].
  assert (Hgrid : grid_cells 2 2 small_sheet <> [])
    by (vm_compute; discriminate).
  assert (Hconv : adapt sample_convert (mode small_sheet) RGBA <> None)
    by (cbn; discriminate).
  split; [exact Hwf|]. split; [exact HW|]. split; [exact HH|].
  split; [exact Hgrid|]. split; [exact Hconv|]. split; [reflexivity|].
  destruct (realign32_outcomes sample_convert 2 2 2147483647 small_sheet
              Hwf HW HH) as (_ & _ & _ & Hover & _).
  exact (Hover Hgrid Hconv eq_refl).
Defined.

Lemma realign32_offset_beyond_frame_small_sheet :
  wf_image small_sheet = true
  /\ c_int (width small_sheet) = true /\ c_int (height small_sheet) = true
  /\ 0 < 2 /\ 0 < 2 /\ offset_fits 2 2 = true
  /\ adapt sample_convert (mode small_sheet) RGBA = Some (fun p => p)
  /\ 2 <= 2
  /\ realign32 sample_convert 2 2 2 small_sheet
     = Ok (mkImage RGBA 5 4 (raster 5 4 (fun _ _ => [0; 0; 0; 0]))).
Proof.
  destruct small_sheet_valid as [Hwf Hconv].
  destruct small_sheet_fits as [HW HH].
  assert (Hfw : 0 < 2) by lia.
  assert (Hbig : 2 <= 2 \/ 2 <= - 2) by (left; lia).
  split; [exact Hwf|]. split; [exact HW|]. split; [exact HH|].
  split; [exact Hfw|]. split; [exact Hfw|]. split; [reflexivity|].
  split; [exact Hconv|]. split; [lia|].
  exact (realign32_offset_beyond_frame sample_convert 2 2 2 small_sheet
           (fun p => p) Hwf HW HH Hfw Hfw eq_refl Hconv Hbig).
Defined.

Lemma realign32_cell_local_small_sheets :
  wf_image small_sheet = true /\ wf_image small_sheet_left = true
  /\ c_int (width small_sheet) = true /\ c_int (height small_sheet) = true
  /\ mode small_sheet = RGBA /\ mode small_sheet_left = RGBA
  /\ 0 < 2 /\ 0 < 2 /\ offset_fits 2 1 = true
  /\ pixel_at small_sheet 3 3 <> pixel_at small_sheet_left 3 3
  /\ exists out out',
       realign32 sample_convert 2 2 1 small_sheet = Ok out
       /\ realign32 sample_convert 2 2 1 small_sheet_left = Ok out'
       /\ pixel_at out 1 3 = pixel_at out' 1 3.
Proof.
  destruct small_sheet_valid as [Hwf _].
  destruct small_sheet_fits as [HW HH].
  assert (Hfw : 0 < 2) by lia.
  assert (Hr : 0 <= 1 < height small_sheet / 2) by sample_bounds.
  assert (Hc : 0 <= 0 < width small_sheet / 2) by sample_bounds.
  split; [exact Hwf|]. split; [reflexivity|]. split; [exact HW|].
  split; [exact HH|]. split; [reflexivity|]. split; [reflexivity|].
  split; [exact Hfw|]. split; [exact Hfw|]. split; [reflexivity|].
  split; [vm_compute; discriminate|].
  destruct (realign32_cell_local sample_convert 2 2 1 small_sheet
              small_sheet_left 1 0 Hwf eq_refl HW HH eq_refl eq_refl
              eq_refl eq_refl Hfw Hfw eq_refl Hr Hc
              small_sheets_agree_on_left_cell)
    as (out & out' & Hout & Hout' & Hpix).
  exists out, out'. split; [exact Hout|]. split; [exact Hout'|].
  exact (Hpix 1 1 ltac:(lia) ltac:(lia)).
Defined.

Lemma realign32_offsets_add_small_sheet :
  wf_image small_sheet = true
  /\ c_int (width small_sheet) = true /\ c_int (height small_sheet) = true
  /\ 0 < 2 /\ 0 < 4
  /\ offset_fits 4 1 = true /\ offset_fits 4 2 = true
  /\ offset_fits 4 (1 + 2) = true
  /\ adapt sample_convert (mode small_sheet) RGBA = Some (fun p => p)
  /\ (0 <= 1 /\ 0 <= 2)
  /\ exists out,
       realign32 sample_convert 2 4 1 small_sheet = Ok out
       /\ realign32 sample_convert 2 4 2 out
          = realign32 sample_convert 2 4 (1 + 2) small_sheet.
Proof.
  destruct small_sheet_valid as [Hwf Hconv].
  destruct small_sheet_fits as [HW HH].
  assert (Hfw : 0 < 2) by lia.
  assert (Hfh : 0 < 4) by lia.
  assert (Hsign : (0 <= 1 /\ 0 <= 2) \/ (1 <= 0 /\ 2 <= 0)) by (left; lia).
  split; [exact Hwf|]. split; [exact HW|]. split; [exact HH|].
  split; [exact Hfw|]. split; [exact Hfh|]. split; [reflexivity|].
  split; [reflexivity|]. split; [reflexivity|]. split; [exact Hconv|].
  split; [lia|].
  exact (realign32_offsets_add sample_convert 2 4 1 2 small_sheet
           (fun p => p) Hwf HW HH Hfw Hfh eq_refl eq_refl eq_refl Hconv
           Hsign).
Defined.

Lemma realign32_there_and_back_small_sheet :
  wf_image small_sheet = true
  /\ c_int (width small_sheet) = true /\ c_int (height small_sheet) = true
  /\ 0 < 2 /\ 0 < 2
  /\ offset_fits 2 1 = true /\ offset_fits 2 (- 1) = true
  /\ adapt sample_convert (mode small_sheet) RGBA = Some (fun p => p)
  /\ 0 <= 1
  /\ exists out back,
       realign32 sample_convert 2 2 1 small_sheet = Ok out
       /\ realign32 sample_convert 2 2 (- 1) out = Ok back
       /\ pixel_at back 3 2 = Some [3; 2; 7; 255]
       /\ pixel_at back 3 3 = Some [0; 0; 0; 0].
Proof.
  destruct small_sheet_valid as [Hwf Hconv].
  destruct small_sheet_fits as [HW HH].
  assert (Hfw : 0 < 2) by lia.
  assert (Hpos : 0 <= 1) by lia.
  split; [exact Hwf|]. split; [exact HW|]. split; [exact HH|].
  split; [exact Hfw|]. split; [exact Hfw|]. split; [reflexivity|].
  split; [reflexivity|]. split; [exact Hconv|]. split; [exact Hpos|].
  destruct (realign32_there_and_back sample_convert 2 2 1 small_sheet
              (fun p => p) Hwf HW HH Hfw Hfw eq_refl eq_refl Hconv Hpos)
    as (out & back & Hout & Hback & Hpix).
  exists out, back. split; [exact Hout|]. split; [exact Hback|].
  split.
  - exact (Hpix 1 1 1 0 ltac:(sample_bounds) ltac:(sample_bounds)
             ltac:(lia) ltac:(lia)).
  - exact (Hpix 1 1 1 1 ltac:(sample_bounds) ltac:(sample_bounds)
             ltac:(lia) ltac:(lia)).
Defined.

(** The script's own offset is one the library accepts: on a sheet whose
    sides are C ints, as those of every image the library holds, the run
    of the script is [realign]. *)
Lemma realign32_script convert (src : Image) :
  wf_image src = true ->
  c_int (width src) = true -> c_int (height src) = true ->
  realign32 convert Config.frame_width Config.frame_height Config.y_offset
    src
  = realign convert Config.frame_width Config.frame_height Config.y_offset
      src.
Proof. intros Hwf HW HH. now apply realign32_fits. Qed.
